(** * Live auction bidding: the socket service of the Proctor auction site

    A shallow embedding of [src/server/services/socketService.js] (the
    in-memory auction state, the registries of connected sockets and the
    socket.io event handlers) and of the two read-only projections of
    [src/server/routes/auction.js], followed by the properties of the
    specification that concern them.

    Modelling conventions.
    - Money amounts are JS numbers that hold integers; they are [Z].  On
      those, [a <= b] is [Z.leb] and [x || d] takes [d] exactly when [x] is
      missing or [0].
    - A payload field read through [||] is an [option]: [None] is a field
      the client left out.
    - [Date.now()] is an input of the handler that reads it.
    - A JS [Map] is an association list in insertion order: [set] on a key
      already present replaces the value where it stands.
    - [emit] calls are collected, in program order, as the list of
      emissions a handler returns next to the new state. *)

From Stdlib Require Import ZArith DecimalString DecimalPos DecimalZ Lia.
From stdpp Require Import base tactics option list strings.

Set Default Proof Using "Type".

(** ** Data *)

Definition SocketId := string.

Record Lot := mkLot {
  lot_number : Z;
  lot_description : string
}.

Inductive BidStatus := pending | accepted | rejected.

Definition BidStatus_eqb (a b : BidStatus) : bool :=
  match a, b with
  | pending, pending | accepted, accepted | rejected, rejected => true
  | _, _ => false
  end.

(** The bid record built by the [bid:submit] handler. *)
Record Bid := mkBid {
  bid_id : string;
  bid_bidderId : string;
  bid_bidderName : string;
  bid_amount : Z;
  bid_lotNumber : option Z;
  bid_timestamp : Z;
  bid_status : BidStatus;
  bid_isOnline : bool
}.

(** [bid.status = s] on a bid held in the queue. *)
Definition set_status (s : BidStatus) (b : Bid) : Bid :=
  {| bid_id := bid_id b; bid_bidderId := bid_bidderId b;
     bid_bidderName := bid_bidderName b; bid_amount := bid_amount b;
     bid_lotNumber := bid_lotNumber b; bid_timestamp := bid_timestamp b;
     bid_status := s; bid_isOnline := bid_isOnline b |}.

Record ConnectedClients := mkCounts {
  count_bidders : nat;
  count_clerks : nat
}.

(** [auctionState], the single in-memory record. *)
Record AuctionState := mkAuction {
  isLive : bool;
  currentLot : option Lot;
  currentBid : Z;
  bidIncrement : Z;
  onlineBids : list Bid;
  connectedClients : ConnectedClients
}.

Definition initialAuctionState : AuctionState :=
  {| isLive := false; currentLot := None; currentBid := 0; bidIncrement := 5;
     onlineBids := []; connectedClients := mkCounts 0 0 |}.

(** ** JS Map keyed by socket id *)

Module JsMap.
Definition t (V : Type) := list (SocketId * V).

Definition empty {V} : t V := [].

Fixpoint set {V} (k : SocketId) (v : V) (m : t V) : t V :=
  match m with
  | [] => [(k, v)]
  | (k', v') :: m' =>
      if String.eqb k k' then (k, v) :: m' else (k', v') :: set k v m'
  end.

Fixpoint get {V} (k : SocketId) (m : t V) : option V :=
  match m with
  | [] => None
  | (k', v') :: m' => if String.eqb k k' then Some v' else get k m'
  end.

Definition has {V} (k : SocketId) (m : t V) : bool :=
  match get k m with Some _ => true | None => false end.

Fixpoint delete {V} (k : SocketId) (m : t V) : t V :=
  match m with
  | [] => []
  | (k', v') :: m' =>
      if String.eqb k k' then m' else (k', v') :: delete k m'
  end.

Definition size {V} (m : t V) : nat := length m.

Definition values {V} (m : t V) : list V := map snd m.

Definition keys {V} (m : t V) : list SocketId := map fst m.
End JsMap.

Record BidderEntry := mkBidderEntry {
  be_bidderId : string;
  be_name : string;
  be_socket : SocketId
}.

Record ClerkEntry := mkClerkEntry {
  ce_clerkId : string;
  ce_name : string;
  ce_socket : SocketId
}.

(** [connectedSockets]. *)
Record ConnectedSockets := mkSockets {
  bidders : JsMap.t BidderEntry;
  clerks : JsMap.t ClerkEntry
}.

(** ** Array helpers *)

(** [arr.findIndex(p)]; [None] stands for [-1]. *)
Fixpoint findIndex {A} (p : A -> bool) (l : list A) : option nat :=
  match l with
  | [] => None
  | x :: l' => if p x then Some 0 else S <$> findIndex p l'
  end.

(** [arr.find(p)]; [None] stands for [undefined]. *)
Fixpoint js_find {A} (p : A -> bool) (l : list A) : option A :=
  match l with
  | [] => None
  | x :: l' => if p x then Some x else js_find p l'
  end.

(** [x || d] on a numeric payload field. *)
Definition or_num (x : option Z) (d : Z) : Z :=
  match x with
  | Some v => if (v =? 0)%Z then d else v
  | None => d
  end.

(** [x || d] on a string payload field. *)
Definition or_str (x : option string) (d : string) : string :=
  match x with
  | Some EmptyString => d
  | Some v => v
  | None => d
  end.

(** [x || false]. *)
Definition or_false (x : option bool) : bool :=
  match x with Some b => b | None => false end.

(** ** Outbound events *)

Inductive Room := room_bidders | room_clerks.

Inductive Audience :=
  | ToSocket (sid : SocketId)   (* socket.emit *)
  | ToRoom (r : Room)           (* io.to(room).emit *)
  | ToAll.                      (* io.emit *)

(** [getPublicAuctionState()]'s result. *)
Record PublicAuctionState := mkPublic {
  pub_isLive : bool;
  pub_currentLot : option Lot;
  pub_currentBid : Z;
  pub_bidIncrement : Z;
  pub_onlineBidders : nat
}.

(** The three texts of [bid:error]. *)
Inductive BidErrorMessage :=
  | NotRegisteredAsBidder        (* 'Not registered as bidder' *)
  | AuctionNotLive               (* 'Auction is not currently live' *)
  | BidTooLow (current : Z).     (* `Bid must be higher than current bid of $${current}` *)

Record SoldInfo := mkSoldInfo {
  sold_lot : option Lot;
  sold_winningBid : Z;
  sold_winner : string;
  sold_isOnline : bool;
  sold_timestamp : Z
}.

Inductive ServerEvent :=
  | auction_state (s : PublicAuctionState)
  | bidders_count (n : nat)
  | auction_fullState (s : AuctionState)
  | bid_error (m : BidErrorMessage)
  | bid_confirmed (b : Bid)
  | bid_new (b : Bid)
  | error_unauthorized
  | auction_started (lot : option Lot) (startingBid bidIncrement : Z)
  | auction_lotChanged (lot : option Lot) (currentBid : Z)
  | auction_bidUpdate (currentBid : Z) (source : string) (bidderName : option string)
  | bid_accepted (b : Bid)
  | bid_rejected (b : Bid) (reason : option string)
  | auction_lotSold (info : SoldInfo)
  | auction_ended.

Record Emission := emit {
  audience : Audience;
  event : ServerEvent
}.

(** ** Inbound events *)

Inductive ClientMsg :=
  | register_bidder (bidderId name : string)
  | register_clerk (clerkId name : string)
  | bid_submit (amount : Z)
  | auction_start (lot : option Lot) (startingBid bidIncrement : option Z)
  | auction_setLot (lot : Lot) (startingBid : option Z)
  | auction_updateBid (amount : Z) (source : option string)
  | bid_accept (bidId : string)
  | bid_reject (bidId : string) (reason : option string)
  | auction_sold (amount : Z) (winner : string) (isOnline : option bool)
  | auction_end
  | disconnect.

(** ** The server's state *)

Record World := mkWorld {
  auctionState : AuctionState;
  connectedSockets : ConnectedSockets;
  sockets : list SocketId;          (* the sockets connected to [io] *)
  in_bidders : list SocketId;       (* the room 'bidders' *)
  in_clerks : list SocketId         (* the room 'clerks' *)
}.

Definition initialWorld : World :=
  {| auctionState := initialAuctionState;
     connectedSockets := mkSockets JsMap.empty JsMap.empty;
     sockets := []; in_bidders := []; in_clerks := [] |}.

Definition with_auction (a : AuctionState) (w : World) : World :=
  {| auctionState := a; connectedSockets := connectedSockets w;
     sockets := sockets w; in_bidders := in_bidders w; in_clerks := in_clerks w |}.

Definition mem (sid : SocketId) (l : list SocketId) : bool :=
  existsb (String.eqb sid) l.

(** [socket.join(room)]: a room is a set. *)
Definition join (sid : SocketId) (l : list SocketId) : list SocketId :=
  if mem sid l then l else l ++ [sid].

Definition leave (sid : SocketId) (l : list SocketId) : list SocketId :=
  List.filter (fun s => negb (String.eqb sid s)) l.

(** Who receives an emission. *)
Definition recipients (w : World) (a : Audience) : list SocketId :=
  match a with
  | ToSocket sid => [sid]
  | ToRoom room_bidders => in_bidders w
  | ToRoom room_clerks => in_clerks w
  | ToAll => sockets w
  end.

(** ** Handlers

    Each handler takes the id of the socket it was installed on, the
    payload, and the state; it returns the new state and what it emitted. *)

Definition Handler := World -> World * list Emission.

(** [getPublicAuctionState()]: the sanitized state for bidders. *)
Definition getPublicAuctionState (a : AuctionState) : PublicAuctionState :=
  {| pub_isLive := isLive a;
     pub_currentLot := currentLot a;
     pub_currentBid := currentBid a;
     pub_bidIncrement := bidIncrement a;
     pub_onlineBidders := count_bidders (connectedClients a) |}.

Definition set_count_bidders (n : nat) (a : AuctionState) : AuctionState :=
  {| isLive := isLive a; currentLot := currentLot a; currentBid := currentBid a;
     bidIncrement := bidIncrement a; onlineBids := onlineBids a;
     connectedClients := mkCounts n (count_clerks (connectedClients a)) |}.

Definition set_count_clerks (n : nat) (a : AuctionState) : AuctionState :=
  {| isLive := isLive a; currentLot := currentLot a; currentBid := currentBid a;
     bidIncrement := bidIncrement a; onlineBids := onlineBids a;
     connectedClients := mkCounts (count_bidders (connectedClients a)) n |}.

Definition set_onlineBids (l : list Bid) (a : AuctionState) : AuctionState :=
  {| isLive := isLive a; currentLot := currentLot a; currentBid := currentBid a;
     bidIncrement := bidIncrement a; onlineBids := l;
     connectedClients := connectedClients a |}.

Definition set_currentBid (z : Z) (a : AuctionState) : AuctionState :=
  {| isLive := isLive a; currentLot := currentLot a; currentBid := z;
     bidIncrement := bidIncrement a; onlineBids := onlineBids a;
     connectedClients := connectedClients a |}.

(** [socket.on('register:bidder', ...)] *)
Definition on_register_bidder (sid : SocketId) (bidderId name : string) : Handler :=
  fun w =>
    let bidders' :=
      JsMap.set sid (mkBidderEntry bidderId name sid) (bidders (connectedSockets w)) in
    let a' := set_count_bidders (JsMap.size bidders') (auctionState w) in
    ({| auctionState := a';
        connectedSockets := mkSockets bidders' (clerks (connectedSockets w));
        sockets := sockets w;
        in_bidders := join sid (in_bidders w);
        in_clerks := in_clerks w |},
     [ emit (ToSocket sid) (auction_state (getPublicAuctionState a'));
       emit (ToRoom room_clerks) (bidders_count (count_bidders (connectedClients a'))) ]).

(** [socket.on('register:clerk', ...)] *)
Definition on_register_clerk (sid : SocketId) (clerkId name : string) : Handler :=
  fun w =>
    let clerks' :=
      JsMap.set sid (mkClerkEntry clerkId name sid) (clerks (connectedSockets w)) in
    let a' := set_count_clerks (JsMap.size clerks') (auctionState w) in
    ({| auctionState := a';
        connectedSockets := mkSockets (bidders (connectedSockets w)) clerks';
        sockets := sockets w;
        in_bidders := in_bidders w;
        in_clerks := join sid (in_clerks w) |},
     [ emit (ToSocket sid) (auction_fullState a') ]).

(** [`bid_${Date.now()}`] *)
Definition bid_id_at (now : Z) : string :=
  "bid_" +:+ NilZero.string_of_int (Z.to_int now).

(** The bid record that [bid:submit] creates: [currentLot?.number] is
    [None] when there is no current lot. *)
Definition new_bid (a : AuctionState) (bidder : BidderEntry) (now amount : Z) : Bid :=
  {| bid_id := bid_id_at now;
     bid_bidderId := be_bidderId bidder;
     bid_bidderName := be_name bidder;
     bid_amount := amount;
     bid_lotNumber := lot_number <$> currentLot a;
     bid_timestamp := now;
     bid_status := pending;
     bid_isOnline := true |}.

(** [socket.on('bid:submit', ...)] *)
Definition on_bid_submit (sid : SocketId) (now : Z) (amount : Z) : Handler :=
  fun w =>
    let a := auctionState w in
    match JsMap.get sid (bidders (connectedSockets w)) with
    | None => (w, [ emit (ToSocket sid) (bid_error NotRegisteredAsBidder) ])
    | Some bidder =>
        if negb (isLive a) then
          (w, [ emit (ToSocket sid) (bid_error AuctionNotLive) ])
        else if (amount <=? currentBid a)%Z then
          (w, [ emit (ToSocket sid) (bid_error (BidTooLow (currentBid a))) ])
        else
          let bid := new_bid a bidder now amount in
          (with_auction (set_onlineBids (onlineBids a ++ [bid]) a) w,
           [ emit (ToSocket sid) (bid_confirmed bid);
             emit (ToRoom room_clerks) (bid_new bid) ])
    end.

(** [socket.on('auction:start', ...)] *)
Definition on_auction_start (sid : SocketId)
    (lot : option Lot) (startingBid increment : option Z) : Handler :=
  fun w =>
    if negb (JsMap.has sid (clerks (connectedSockets w))) then
      (w, [ emit (ToSocket sid) error_unauthorized ])
    else
      let a := auctionState w in
      let a' :=
        {| isLive := true;
           currentLot := lot;
           currentBid := or_num startingBid 0;
           bidIncrement := or_num increment 5;
           onlineBids := [];
           connectedClients := connectedClients a |} in
      (with_auction a' w,
       [ emit ToAll (auction_started (currentLot a') (currentBid a')
                       (bidIncrement a')) ]).

(** [socket.on('auction:setLot', ...)].  The payload carries a lot: the
    handler's closing log line reads [data.lot.number]. *)
Definition on_auction_setLot (sid : SocketId) (lot : Lot) (startingBid : option Z) : Handler :=
  fun w =>
    if negb (JsMap.has sid (clerks (connectedSockets w))) then (w, [])
    else
      let a := auctionState w in
      let a' :=
        {| isLive := isLive a;
           currentLot := Some lot;
           currentBid := or_num startingBid 0;
           bidIncrement := bidIncrement a;
           onlineBids := [];
           connectedClients := connectedClients a |} in
      (with_auction a' w,
       [ emit ToAll (auction_lotChanged (currentLot a') (currentBid a')) ]).

(** [socket.on('auction:updateBid', ...)] *)
Definition on_auction_updateBid (sid : SocketId) (amount : Z) (source : option string) : Handler :=
  fun w =>
    if negb (JsMap.has sid (clerks (connectedSockets w))) then (w, [])
    else
      let a' := set_currentBid amount (auctionState w) in
      (with_auction a' w,
       [ emit ToAll (auction_bidUpdate (currentBid a') (or_str source "floor") None) ]).

(** [Array.from(connectedSockets.bidders.values()).find(b => b.bidderId === bid.bidderId)] *)
Definition find_bidder_socket (w : World) (bid : Bid) : option BidderEntry :=
  js_find (fun b => String.eqb (be_bidderId b) (bid_bidderId bid))
          (JsMap.values (bidders (connectedSockets w))).

(** [auctionState.onlineBids.findIndex(b => b.id === bidId)] *)
Definition find_bid_index (bidId : string) (a : AuctionState) : option nat :=
  findIndex (fun b => String.eqb (bid_id b) bidId) (onlineBids a).

(** [socket.on('bid:accept', ...)].  The bid is marked where it stands in
    the array and stays there.  The index [findIndex] returns always holds
    a bid ([findIndex_lookup] below), so the [None] branch of the slot read
    is never taken. *)
Definition on_bid_accept (sid : SocketId) (bidId : string) : Handler :=
  fun w =>
    if negb (JsMap.has sid (clerks (connectedSockets w))) then (w, [])
    else
      let a := auctionState w in
      match find_bid_index bidId a with
      | None => (w, [])
      | Some bidIndex =>
          match onlineBids a !! bidIndex with
          | None => (w, [])
          | Some bid0 =>
              let bid := set_status accepted bid0 in
              let a' :=
                set_currentBid (bid_amount bid)
                  (set_onlineBids (<[bidIndex := bid]> (onlineBids a)) a) in
              (with_auction a' w,
               match find_bidder_socket w bid with
               | Some bidderSocket =>
                   [ emit (ToSocket (be_socket bidderSocket)) (bid_accepted bid) ]
               | None => []
               end ++
               [ emit ToAll (auction_bidUpdate (currentBid a') "online"
                               (Some (bid_bidderName bid))) ])
          end
      end.

(** [socket.on('bid:reject', ...)]: the same lookup; nothing is sent to
    the other sockets. *)
Definition on_bid_reject (sid : SocketId) (bidId : string) (reason : option string) : Handler :=
  fun w =>
    if negb (JsMap.has sid (clerks (connectedSockets w))) then (w, [])
    else
      let a := auctionState w in
      match find_bid_index bidId a with
      | None => (w, [])
      | Some bidIndex =>
          match onlineBids a !! bidIndex with
          | None => (w, [])
          | Some bid0 =>
              let bid := set_status rejected bid0 in
              let a' := set_onlineBids (<[bidIndex := bid]> (onlineBids a)) a in
              (with_auction a' w,
               match find_bidder_socket w bid with
               | Some bidderSocket =>
                   [ emit (ToSocket (be_socket bidderSocket)) (bid_rejected bid reason) ]
               | None => []
               end)
          end
      end.

(** [socket.on('auction:sold', ...)] *)
Definition on_auction_sold (sid : SocketId) (now : Z)
    (amount : Z) (winner : string) (isOnline : option bool) : Handler :=
  fun w =>
    if negb (JsMap.has sid (clerks (connectedSockets w))) then (w, [])
    else
      let a := auctionState w in
      let soldInfo :=
        {| sold_lot := currentLot a;
           sold_winningBid := amount;
           sold_winner := winner;
           sold_isOnline := or_false isOnline;
           sold_timestamp := now |} in
      let a' :=
        {| isLive := isLive a;
           currentLot := None;
           currentBid := 0;
           bidIncrement := bidIncrement a;
           onlineBids := [];
           connectedClients := connectedClients a |} in
      (with_auction a' w, [ emit ToAll (auction_lotSold soldInfo) ]).

(** [socket.on('auction:end', ...)] *)
Definition on_auction_end (sid : SocketId) : Handler :=
  fun w =>
    if negb (JsMap.has sid (clerks (connectedSockets w))) then (w, [])
    else
      let a := auctionState w in
      let a' :=
        {| isLive := false;
           currentLot := None;
           currentBid := 0;
           bidIncrement := bidIncrement a;
           onlineBids := [];
           connectedClients := connectedClients a |} in
      (with_auction a' w, [ emit ToAll auction_ended ]).

(** [socket.on('disconnect', ...)].  socket.io has already taken the
    socket out of its rooms and of [io]'s sockets when the handler runs. *)
Definition on_disconnect (sid : SocketId) : Handler :=
  fun w =>
    let w0 :=
      {| auctionState := auctionState w;
         connectedSockets := connectedSockets w;
         sockets := leave sid (sockets w);
         in_bidders := leave sid (in_bidders w);
         in_clerks := leave sid (in_clerks w) |} in
    let '(w1, out1) :=
      if JsMap.has sid (bidders (connectedSockets w0)) then
        let bidders' := JsMap.delete sid (bidders (connectedSockets w0)) in
        let a' := set_count_bidders (JsMap.size bidders') (auctionState w0) in
        ({| auctionState := a';
            connectedSockets := mkSockets bidders' (clerks (connectedSockets w0));
            sockets := sockets w0; in_bidders := in_bidders w0;
            in_clerks := in_clerks w0 |},
         [ emit (ToRoom room_clerks) (bidders_count (count_bidders (connectedClients a'))) ])
      else (w0, []) in
    let w2 :=
      if JsMap.has sid (clerks (connectedSockets w1)) then
        let clerks' := JsMap.delete sid (clerks (connectedSockets w1)) in
        let a' := set_count_clerks (JsMap.size clerks') (auctionState w1) in
        {| auctionState := a';
           connectedSockets := mkSockets (bidders (connectedSockets w1)) clerks';
           sockets := sockets w1; in_bidders := in_bidders w1;
           in_clerks := in_clerks w1 |}
      else w1 in
    (w2, out1).

(** The handler installed for each inbound event. *)
Definition handle (sid : SocketId) (now : Z) (m : ClientMsg) : Handler :=
  match m with
  | register_bidder bidderId name => on_register_bidder sid bidderId name
  | register_clerk clerkId name => on_register_clerk sid clerkId name
  | bid_submit amount => on_bid_submit sid now amount
  | auction_start lot startingBid increment =>
      on_auction_start sid lot startingBid increment
  | auction_setLot lot startingBid => on_auction_setLot sid lot startingBid
  | auction_updateBid amount source => on_auction_updateBid sid amount source
  | bid_accept bidId => on_bid_accept sid bidId
  | bid_reject bidId reason => on_bid_reject sid bidId reason
  | auction_sold amount winner isOnline => on_auction_sold sid now amount winner isOnline
  | auction_end => on_auction_end sid
  | disconnect => on_disconnect sid
  end.

(** ** Runs

    A socket has handlers from [io.on('connection')] until it disconnects;
    a message for a socket that is not connected reaches no handler. *)

Inductive Event :=
  | Connect (sid : SocketId)
  | Receive (sid : SocketId) (now : Z) (m : ClientMsg).

Definition step (e : Event) : Handler :=
  fun w =>
    match e with
    | Connect sid =>
        ({| auctionState := auctionState w;
            connectedSockets := connectedSockets w;
            sockets := join sid (sockets w);
            in_bidders := in_bidders w; in_clerks := in_clerks w |}, [])
    | Receive sid now m =>
        if mem sid (sockets w) then handle sid now m w else (w, [])
    end.

(** The state after a run and everything emitted during it. *)
Fixpoint run (evs : list Event) (w : World) : World * list Emission :=
  match evs with
  | [] => (w, [])
  | e :: evs' =>
      let '(w1, out1) := step e w in
      let '(w2, out2) := run evs' w1 in
      (w2, out1 ++ out2)
  end.

Definition reachable (w : World) : Prop :=
  exists evs, (run evs initialWorld).1 = w.

(** ** The REST projections of [routes/auction.js] *)

Definition is_pending (b : Bid) : bool := BidStatus_eqb (bid_status b) pending.

(** [GET /online-bids]: [{ pendingBids, allBids }]. *)
Definition route_online_bids (a : AuctionState) : list Bid * list Bid :=
  (List.filter is_pending (onlineBids a), onlineBids a).

Record StatusView := mkStatus {
  st_isLive : bool;
  st_currentLot : option Lot;
  st_currentBid : Z;
  st_onlineBidders : nat;
  st_pendingBids : nat
}.

(** [GET /status]. *)
Definition route_status (a : AuctionState) : StatusView :=
  {| st_isLive := isLive a;
     st_currentLot := currentLot a;
     st_currentBid := currentBid a;
     st_onlineBidders := count_bidders (connectedClients a);
     st_pendingBids := length (List.filter is_pending (onlineBids a)) |}.

(** ** Predicates of the statements, and sample states *)

Definition chair : Lot := mkLot 11 "oak chair".

(** A clerk [c1] and a bidder [b1] are connected and registered, and lot 11
    has been started at 100. *)
Definition live_events : list Event :=
  [ Connect "c1"; Receive "c1" 1 (register_clerk "clerk_1" "Clerk Terminal");
    Connect "b1"; Receive "b1" 2 (register_bidder "B7" "Ann");
    Receive "c1" 3 (auction_start (Some chair) (Some 100%Z) None) ].

Definition live_world : World := Eval vm_compute in (run live_events initialWorld).1.

(** The same, with Ann's bid of 105 waiting in the queue. *)
Definition queued_events : list Event :=
  live_events ++ [ Receive "b1" 5 (bid_submit 105) ].

Definition queued_world : World := Eval vm_compute in (run queued_events initialWorld).1.

(** The same, after Ann has disconnected. *)
Definition orphan_events : list Event :=
  queued_events ++ [ Receive "b1" 6 disconnect ].

Definition orphan_world : World := Eval vm_compute in (run orphan_events initialWorld).1.

(** A submission: the sending socket, the clock reading, the amount. *)
Definition Submission := (SocketId * Z * Z)%type.

Definition submit_event (s : Submission) : Event :=
  Receive s.1.1 s.1.2 (bid_submit s.2).

Definition too_low_reply (w : World) (s : Submission) : Emission :=
  emit (ToSocket s.1.1) (bid_error (BidTooLow (currentBid (auctionState w)))).

Definition low_submission (w : World) (s : Submission) : Prop :=
  mem s.1.1 (sockets w) = true /\
  JsMap.has s.1.1 (bidders (connectedSockets w)) = true /\
  (s.2 <= currentBid (auctionState w))%Z.

(** No entry of the bidder registry carries the bid's [bidderId]. *)
Definition bidder_gone (w : World) (b : Bid) : Prop :=
  Forall (fun e => be_bidderId e <> bid_bidderId b)
         (JsMap.values (bidders (connectedSockets w))).

(** The lookup of [bid:accept] and [bid:reject] came back with [-1]. *)
Definition NotFound (bidId : string) (w : World) : Prop :=
  find_bid_index bidId (auctionState w) = None.

Definition all_pending (l : list Bid) : Prop :=
  Forall (fun b => bid_status b = pending) l.

(** The state reached when the clerk has accepted Ann's bid. *)
Definition accepted_events : list Event :=
  queued_events ++ [ Receive "c1" 6 (bid_accept "bid_5") ].

Definition accepted_world : World :=
  Eval vm_compute in (run accepted_events initialWorld).1.

(** The inbound events that never touch [currentBid], whoever sends them. *)
Definition keeps_price (e : Event) : bool :=
  match e with
  | Connect _ => true
  | Receive _ _ (register_bidder _ _ | register_clerk _ _ | bid_submit _
                 | bid_reject _ _ | disconnect) => true
  | Receive _ _ _ => false
  end.

(** The commands reserved to clerks. *)
Definition clerk_command (m : ClientMsg) : bool :=
  match m with
  | auction_start _ _ _ | auction_setLot _ _ | auction_updateBid _ _
  | bid_accept _ | bid_reject _ _ | auction_sold _ _ _ | auction_end => true
  | _ => false
  end.

(** One socket that registers as a bidder and then as a clerk. *)
Definition both_roles_events : list Event :=
  [ Connect "s1"; Receive "s1" 1 (register_bidder "B9" "Eve");
    Receive "s1" 2 (register_clerk "clerk_9" "Eve") ].

Definition both_roles_world : World :=
  Eval vm_compute in (run both_roles_events initialWorld).1.

(** What ties the rooms of socket.io to the registries of the service. *)
Record consistent (w : World) : Prop := mkConsistent {
  room_of_bidders : in_bidders w = JsMap.keys (bidders (connectedSockets w));
  room_of_clerks : in_clerks w = JsMap.keys (clerks (connectedSockets w));
  bidders_distinct : NoDup (in_bidders w);
  clerks_distinct : NoDup (in_clerks w);
  bidders_connected : forall s, s ∈ in_bidders w -> s ∈ sockets w;
  clerks_connected : forall s, s ∈ in_clerks w -> s ∈ sockets w
}.

(** ** Predicates on states and runs *)

(** The role counts kept in [auctionState] are the sizes of the registries. *)
Definition counts_agree (w : World) : Prop :=
  count_bidders (connectedClients (auctionState w)) =
    JsMap.size (bidders (connectedSockets w)) /\
  count_clerks (connectedClients (auctionState w)) =
    JsMap.size (clerks (connectedSockets w)).

(** Every registry entry holds the socket under whose id it is filed. *)
Definition entries_keyed (w : World) : Prop :=
  Forall (fun kv => be_socket kv.2 = kv.1) (bidders (connectedSockets w)) /\
  Forall (fun kv => ce_socket kv.2 = kv.1) (clerks (connectedSockets w)).

(** A queued bid as [bid:submit] makes it for the lot that is current: it
    carries that lot's number, is flagged online, and its id is [bid_]
    followed by a clock reading. *)
Definition bid_of_lot (a : AuctionState) (b : Bid) : Prop :=
  bid_lotNumber b = lot_number <$> currentLot a /\
  bid_isOnline b = true /\
  exists t, bid_id b = bid_id_at t.

Definition queue_of_current_lot (a : AuctionState) : Prop :=
  Forall (bid_of_lot a) (onlineBids a).

(** The live flag, the lot and the increment are the same in both. *)
Definition same_lot (a a' : AuctionState) : Prop :=
  isLive a' = isLive a /\ currentLot a' = currentLot a /\
  bidIncrement a' = bidIncrement a.

(** What a handler other than the four lot commands can do to the queue:
    nothing, append one fresh pending bid, or mark the bid an id locates. *)
Inductive queue_effect (a a' : AuctionState) : Prop :=
  | effect_keep :
      same_lot a a' -> onlineBids a' = onlineBids a -> queue_effect a a'
  | effect_queue (b : Bid) :
      isLive a = true -> bid_of_lot a b -> bid_status b = pending ->
      same_lot a a' -> currentBid a' = currentBid a ->
      onlineBids a' = onlineBids a ++ [b] ->
      queue_effect a a'
  | effect_mark (bidId : string) (i : nat) (b : Bid) (s : BidStatus) :
      find_bid_index bidId a = Some i -> onlineBids a !! i = Some b ->
      same_lot a a' ->
      onlineBids a' = <[i := set_status s b]> (onlineBids a) ->
      queue_effect a a'.

(** What any handler can do to it: the above, or empty it. *)
Definition auction_effect (a a' : AuctionState) : Prop :=
  queue_effect a a' \/
  (onlineBids a' = [] /\
   (bidIncrement a' = bidIncrement a \/ exists inc, bidIncrement a' = or_num inc 5)).

(** A bid that stands behind a bid of the same id. *)
Definition shadowed (i j : nat) (b2 : Bid) (a : AuctionState) : Prop :=
  exists b1, onlineBids a !! i = Some b1 /\ bid_id b1 = bid_id b2 /\
             onlineBids a !! j = Some b2.

(** The commands that replace or clear the current lot. *)
Definition lot_command (m : ClientMsg) : bool :=
  match m with
  | auction_start _ _ _ | auction_setLot _ _ | auction_sold _ _ _ | auction_end => true
  | _ => false
  end.

Definition keeps_lot (e : Event) : bool :=
  match e with
  | Connect _ => true
  | Receive _ _ m => negb (lot_command m)
  end.

Definition no_clerk_registration (e : Event) : bool :=
  match e with
  | Receive _ _ (register_clerk _ _) => false
  | _ => true
  end.

Definition not_start (e : Event) : bool :=
  match e with
  | Receive _ _ (auction_start _ _ _) => false
  | _ => true
  end.

(** The outbound events whose payload holds a bid record. *)
Definition carries_bid (ev : ServerEvent) : bool :=
  match ev with
  | bid_confirmed _ | bid_new _ | bid_accepted _ | bid_rejected _ _ => true
  | _ => false
  end.

(** Where each kind of outbound event may go, for a handler running on
    socket [sid] in state [w]. *)
Definition addressed (w : World) (sid : SocketId) (e : Emission) : Prop :=
  match event e with
  | auction_state _ | auction_fullState _ | bid_error _ | bid_confirmed _
  | error_unauthorized =>
      audience e = ToSocket sid
  | bidders_count _ | bid_new _ =>
      audience e = ToRoom room_clerks
  | bid_accepted b | bid_rejected b _ =>
      exists entry,
        entry ∈ JsMap.values (bidders (connectedSockets w)) /\
        be_bidderId entry = bid_bidderId b /\
        audience e = ToSocket (be_socket entry)
  | auction_started _ _ _ | auction_lotChanged _ _ | auction_bidUpdate _ _ _
  | auction_lotSold _ | auction_ended =>
      audience e = ToAll
  end.

(** Two bids of Ann's that reach the server within the same millisecond. *)
Definition twin_events : list Event :=
  live_events ++ [ Receive "b1" 5 (bid_submit 105); Receive "b1" 5 (bid_submit 110) ].

Definition twin_world : World := Eval vm_compute in (run twin_events initialWorld).1.

(** ** The lot catalogue of [routes/auction.js]

    The module keeps [lots] and [currentAuction] in memory.  The
    [PUT /lots/:lotId] route, which merges an arbitrary request body into
    a lot, is not modelled. *)

Inductive LotStatus := lot_pending | lot_active | lot_sold | lot_passed.

Record Winner := mkWinner {
  win_buyerNumber : Z;
  win_name : string;
  win_isOnline : bool
}.

Record CatalogLot := mkCatalogLot {
  cl_id : string;
  cl_number : Z;
  cl_description : string;
  cl_startingBid : Z;
  cl_estimate : option Z;
  cl_category : string;
  cl_images : list string;
  cl_status : LotStatus;
  cl_winningBid : option Z;
  cl_winner : option Winner;
  cl_createdAt : Z;
  cl_soldAt : option Z
}.

Record AuctionInfo := mkAuctionInfo {
  au_id : string;
  au_title : string;
  au_date : string;
  au_startTime : string;
  au_description : string;
  au_livestreamUrl : string;
  au_status : string;
  au_createdAt : Z
}.

Record Catalog := mkCatalog {
  lots : list CatalogLot;
  currentAuction : option AuctionInfo
}.

(** An HTTP answer: [res.json(...)], or [res.status(400 | 404).json({error})]. *)
Inductive Reply (A : Type) :=
  | reply_ok (payload : A)
  | reply_400 (error : string)
  | reply_404 (error : string).
Arguments reply_ok {A} payload.
Arguments reply_400 {A} error.
Arguments reply_404 {A} error.

(** [!x] on a numeric or a string field of the request body. *)
Definition missing_num (x : option Z) : bool :=
  match x with Some v => (v =? 0)%Z | None => true end.

Definition missing_str (x : option string) : bool :=
  match x with Some EmptyString | None => true | Some _ => false end.

(** [x || null] on a numeric field. *)
Definition or_null (x : option Z) : option Z :=
  match x with
  | Some v => if (v =? 0)%Z then None else Some v
  | None => None
  end.

Definition decimal (z : Z) : string := NilZero.string_of_int (Z.to_int z).

Record LotBody := mkLotBody {
  lb_number : option Z;
  lb_description : option string;
  lb_startingBid : option Z;
  lb_estimate : option Z;
  lb_category : option string;
  lb_images : option (list string)
}.

(** [`lot_${Date.now()}`] *)
Definition lot_id_at (now : Z) : string := "lot_" +:+ decimal now.

(** [POST /lots] *)
Definition post_lot (now : Z) (body : LotBody) (c : Catalog) : Catalog * Reply CatalogLot :=
  if missing_num (lb_number body) || missing_str (lb_description body) then
    (c, reply_400 "Lot number and description are required")
  else
    let lot :=
      {| cl_id := lot_id_at now;
         cl_number := default 0%Z (lb_number body);
         cl_description := default "" (lb_description body);
         cl_startingBid := or_num (lb_startingBid body) 0;
         cl_estimate := or_null (lb_estimate body);
         cl_category := or_str (lb_category body) "General";
         cl_images := default [] (lb_images body);
         cl_status := lot_pending;
         cl_winningBid := None;
         cl_winner := None;
         cl_createdAt := now;
         cl_soldAt := None |} in
    (mkCatalog (lots c ++ [lot]) (currentAuction c), reply_ok lot).

(** The lot [POST /lots/bulk] makes of the item at [index]; [clock index]
    is what [Date.now()] returns while that item is mapped. *)
Definition bulk_lot (clock : nat -> Z) (len : nat) (index : nat) (item : LotBody) : CatalogLot :=
  {| cl_id := "lot_" +:+ decimal (clock index) +:+ "_" +:+ decimal (Z.of_nat index);
     cl_number := or_num (lb_number item) (Z.of_nat (len + index + 1));
     cl_description := or_str (lb_description item) "No description";
     cl_startingBid := or_num (lb_startingBid item) 0;
     cl_estimate := or_null (lb_estimate item);
     cl_category := or_str (lb_category item) "General";
     cl_images := default [] (lb_images item);
     cl_status := lot_pending;
     cl_winningBid := None;
     cl_winner := None;
     cl_createdAt := clock index;
     cl_soldAt := None |}.

(** [POST /lots/bulk]; [None] is a body whose [items] is missing or is not
    an array.  The answer holds the number added and the added lots. *)
Definition post_lots_bulk (clock : nat -> Z) (items : option (list LotBody)) (c : Catalog)
    : Catalog * Reply (nat * list CatalogLot) :=
  match items with
  | None => (c, reply_400 "Items array is required")
  | Some items =>
      let addedLots := imap (bulk_lot clock (length (lots c))) items in
      (mkCatalog (lots c ++ addedLots) (currentAuction c),
       reply_ok (length addedLots, addedLots))
  end.

(** [DELETE /lots/:lotId] *)
Definition delete_lot (lotId : string) (c : Catalog) : Catalog * Reply CatalogLot :=
  match findIndex (fun l => String.eqb (cl_id l) lotId) (lots c) with
  | None => (c, reply_404 "Lot not found")
  | Some lotIndex =>
      match lots c !! lotIndex with
      | Some deleted =>
          (mkCatalog (delete lotIndex (lots c)) (currentAuction c), reply_ok deleted)
      | None => (c, reply_404 "Lot not found")
      end
  end.

Record CreateBody := mkCreateBody {
  cb_title : option string;
  cb_date : option string;
  cb_startTime : option string;
  cb_description : option string;
  cb_livestreamUrl : option string
}.

(** [POST /create] *)
Definition post_create (now : Z) (body : CreateBody) (c : Catalog) : Catalog * Reply AuctionInfo :=
  if missing_str (cb_title body) || missing_str (cb_date body) then
    (c, reply_400 "Title and date are required")
  else
    let auction :=
      {| au_id := "auction_" +:+ decimal now;
         au_title := default "" (cb_title body);
         au_date := default "" (cb_date body);
         au_startTime := or_str (cb_startTime body) "10:00 AM";
         au_description := or_str (cb_description body) "";
         au_livestreamUrl := or_str (cb_livestreamUrl body) "";
         au_status := "scheduled";
         au_createdAt := now |} in
    (mkCatalog [] (Some auction), reply_ok auction).

Definition is_sold (l : CatalogLot) : bool :=
  match cl_status l with lot_sold => true | _ => false end.

(** [GET /current]: the auction, [lotCount] and [soldCount]. *)
Definition get_current (c : Catalog) : Reply (AuctionInfo * nat * nat) :=
  match currentAuction c with
  | None => reply_404 "No active auction"
  | Some auction =>
      reply_ok (auction, length (lots c), length (List.filter is_sold (lots c)))
  end.

Record SaleBody := mkSaleBody {
  sb_lotNumber : option Z;
  sb_winningBid : option Z;
  sb_buyerNumber : option Z;
  sb_buyerName : option string;
  sb_isOnline : option bool
}.

(** The payload of the [auction:lotSold] that [POST /record-sale] sends
    through [io.emit]. *)
Record SaleNotice := mkSaleNotice {
  sn_lotNumber : Z;
  sn_winningBid : Z;
  sn_winner : string;
  sn_isOnline : option bool
}.

(** [buyerName || `Buyer #${buyerNumber}`] *)
Definition winner_name (body : SaleBody) : string :=
  or_str (sb_buyerName body) ("Buyer #" +:+ decimal (default 0%Z (sb_buyerNumber body))).

(** What [POST /record-sale] writes into the lot it finds. *)
Definition mark_sold (now : Z) (body : SaleBody) (lot : CatalogLot) : CatalogLot :=
  {| cl_id := cl_id lot; cl_number := cl_number lot;
     cl_description := cl_description lot; cl_startingBid := cl_startingBid lot;
     cl_estimate := cl_estimate lot; cl_category := cl_category lot;
     cl_images := cl_images lot;
     cl_status := lot_sold;
     cl_winningBid := sb_winningBid body;
     cl_winner := Some (mkWinner (default 0%Z (sb_buyerNumber body)) (winner_name body)
                          (or_false (sb_isOnline body)));
     cl_createdAt := cl_createdAt lot;
     cl_soldAt := Some now |}.

(** The [sale] object of the answer of [POST /record-sale]. *)
Record SaleReceipt := mkSaleReceipt {
  sr_lotNumber : Z;
  sr_winningBid : Z;
  sr_buyerNumber : Z;
  sr_buyerName : option string;
  sr_isOnline : option bool;
  sr_timestamp : Z
}.

(** [POST /record-sale], with [io] available: the catalogue, the answer
    and what is sent to everyone through [io.emit]. *)
Definition post_record_sale (now : Z) (body : SaleBody) (c : Catalog)
    : Catalog * Reply SaleReceipt * option SaleNotice :=
  if missing_num (sb_lotNumber body) || missing_num (sb_winningBid body)
     || missing_num (sb_buyerNumber body) then
    (c, reply_400 "Lot number, winning bid, and buyer number are required", None)
  else
    let lotNumber := default 0%Z (sb_lotNumber body) in
    let winningBid := default 0%Z (sb_winningBid body) in
    let lots' :=
      match findIndex (fun l => (cl_number l =? lotNumber)%Z) (lots c) with
      | Some i =>
          match lots c !! i with
          | Some lot => <[i := mark_sold now body lot]> (lots c)
          | None => lots c
          end
      | None => lots c
      end in
    (mkCatalog lots' (currentAuction c),
     reply_ok (mkSaleReceipt lotNumber winningBid (default 0%Z (sb_buyerNumber body))
                 (sb_buyerName body) (sb_isOnline body) now),
     Some (mkSaleNotice lotNumber winningBid (winner_name body) (sb_isOnline body))).

(** The requests that write to the catalogue. *)
Inductive CatalogRequest :=
  | req_post_lot (now : Z) (body : LotBody)
  | req_post_bulk (clock : nat -> Z) (items : option (list LotBody))
  | req_delete_lot (lotId : string)
  | req_create (now : Z) (body : CreateBody)
  | req_record_sale (now : Z) (body : SaleBody).

Definition serve (r : CatalogRequest) (c : Catalog) : Catalog :=
  match r with
  | req_post_lot now body => (post_lot now body c).1
  | req_post_bulk clock items => (post_lots_bulk clock items c).1
  | req_delete_lot lotId => (delete_lot lotId c).1
  | req_create now body => (post_create now body c).1
  | req_record_sale now body => (post_record_sale now body c).1.1
  end.

Definition serve_all (rs : list CatalogRequest) (c : Catalog) : Catalog :=
  foldl (fun c r => serve r c) c rs.

(** A lot with a number other than 0 and a description that is not empty. *)
Definition well_labelled (l : CatalogLot) : Prop :=
  cl_number l <> 0%Z /\ cl_description l <> "".

Definition sample_body (n : Z) (d : string) : LotBody :=
  mkLotBody (Some n) (Some d) None None None None.

(** A catalogue with three lots, two of them numbered 7. *)
Definition sample_catalog : Catalog :=
  Eval vm_compute in
    (post_lot 30 (sample_body 7 "mirror")
       (post_lot 20 (sample_body 8 "clock")
          (post_lot 10 (sample_body 7 "vase") (mkCatalog [] None)).1).1).1.

(** ** Lemmas on the containers *)

Section Containers.
Context {V : Type}.
Implicit Types (m : JsMap.t V) (k : SocketId) (v : V).

Lemma has_get k m : JsMap.has k m = true <-> is_Some (JsMap.get k m).
Proof.
  unfold JsMap.has. destruct (JsMap.get k m); split; intros H; eauto.
  - discriminate.
  - by destruct H.
Qed.

Lemma get_set_eq k v m : JsMap.get k (JsMap.set k v m) = Some v.
Proof.
  induction m as [|[k' v'] m IH]; simpl.
  - by rewrite String.eqb_refl.
  - destruct (String.eqb k k') eqn:E; simpl.
    + by rewrite String.eqb_refl.
    + by rewrite E.
Qed.

Lemma get_set_ne k k' v m :
  k <> k' -> JsMap.get k' (JsMap.set k v m) = JsMap.get k' m.
Proof.
  intros Hne. induction m as [|[k0 v0] m IH]; simpl.
  - destruct (String.eqb_spec k' k); congruence.
  - destruct (String.eqb_spec k k0) as [->|]; simpl.
    + destruct (String.eqb_spec k' k0); congruence.
    + destruct (String.eqb_spec k' k0); congruence.
Qed.

Lemma has_set_same k v m : JsMap.has k (JsMap.set k v m) = true.
Proof. unfold JsMap.has. by rewrite get_set_eq. Qed.

(** [set] on a key already present keeps the size and the key order. *)
Lemma keys_set_present k v m :
  JsMap.has k m = true -> JsMap.keys (JsMap.set k v m) = JsMap.keys m.
Proof.
  unfold JsMap.has, JsMap.keys.
  induction m as [|[k' v'] m IH]; simpl; [done|].
  destruct (String.eqb_spec k k') as [->|]; simpl; [done|].
  intros H. by rewrite IH.
Qed.

Lemma size_set_present k v m :
  JsMap.has k m = true -> JsMap.size (JsMap.set k v m) = JsMap.size m.
Proof.
  intros H. unfold JsMap.size.
  rewrite <- (length_map fst (JsMap.set k v m)), <- (length_map fst m).
  change (length (JsMap.keys (JsMap.set k v m)) = length (JsMap.keys m)).
  by rewrite keys_set_present.
Qed.

Lemma size_set_absent k v m :
  JsMap.has k m = false -> JsMap.size (JsMap.set k v m) = S (JsMap.size m).
Proof.
  unfold JsMap.has, JsMap.size.
  induction m as [|[k' v'] m IH]; simpl; [done|].
  destruct (String.eqb_spec k k') as [->|]; simpl; [done|].
  intros H. by rewrite IH.
Qed.
End Containers.

Section FindIndex.
Context {A : Type} (p : A -> bool).

Lemma findIndex_lookup (l : list A) i :
  findIndex p l = Some i -> exists x, l !! i = Some x /\ p x = true.
Proof.
  revert i. induction l as [|y l IH]; intros i; simpl; [done|].
  destruct (p y) eqn:E.
  - intros [= <-]. eauto.
  - destruct (findIndex p l) as [j|]; simpl; [|done].
    intros [= <-]. by apply IH.
Qed.

Lemma findIndex_None (l : list A) :
  findIndex p l = None <-> Forall (fun x => p x = false) l.
Proof.
  induction l as [|y l IH]; simpl.
  - split; [constructor | done].
  - destruct (p y) eqn:E.
    + split; [done|]. intros H. inversion H; congruence.
    + destruct (findIndex p l); simpl.
      * split; [done|]. intros H. inversion H; subst.
        by apply IH in H3.
      * split; [|done]. intros _. constructor; [done|]. by apply IH.
Qed.

(** Overwriting the found slot with an element that still satisfies the
    predicate does not move the hit. *)
Lemma findIndex_insert (l : list A) i x :
  findIndex p l = Some i -> p x = true ->
  findIndex p (<[i := x]> l) = Some i.
Proof.
  revert i. induction l as [|y l IH]; intros i; simpl; [done|].
  destruct (p y) eqn:E.
  - intros [= <-] Hx. simpl. by rewrite Hx.
  - destruct (findIndex p l) as [j|] eqn:F; simpl; [|done].
    intros [= <-] Hx. simpl. rewrite E. by rewrite (IH j).
Qed.

Lemma js_find_None (l : list A) :
  Forall (fun x => p x = false) l -> js_find p l = None.
Proof.
  induction 1 as [|y l Hy _ IH]; simpl; [done|]. by rewrite Hy.
Qed.
End FindIndex.

Lemma or_num_given (s : Z) : or_num (Some s) 0 = s.
Proof. unfold or_num. destruct (Z.eqb_spec s 0); congruence. Qed.

(** Unfolds the handlers and splits on every test they make. *)
Ltac unfold_handlers :=
  cbn [handle];
  unfold on_register_bidder, on_register_clerk, on_bid_submit, on_auction_start,
    on_auction_setLot, on_auction_updateBid, on_bid_accept, on_bid_reject,
    on_auction_sold, on_auction_end.

Ltac split_tests :=
  try reflexivity;
  repeat match goal with
    | |- context [match ?x with _ => _ end] => destruct x eqn:?; simpl; try reflexivity
    end.

(** ** Rooms and registries *)

Lemma mem_elem_of sid (l : list SocketId) : mem sid l = true <-> sid ∈ l.
Proof.
  unfold mem. rewrite List.existsb_exists. split.
  - intros (x & Hin & Heq). apply String.eqb_eq in Heq as ->.
    by apply list_elem_of_In.
  - intros Hin. exists sid. split; [by apply list_elem_of_In|apply String.eqb_refl].
Qed.

Lemma mem_false sid (l : list SocketId) : mem sid l = false <-> sid ∉ l.
Proof.
  rewrite <- mem_elem_of. destruct (mem sid l); split; congruence.
Qed.

Lemma has_keys {V} k (m : JsMap.t V) : JsMap.has k m = mem k (JsMap.keys m).
Proof.
  unfold JsMap.has, JsMap.keys, mem.
  induction m as [|[k' v'] m IH]; simpl; [done|].
  destruct (String.eqb k k'); [done|]. apply IH.
Qed.

Lemma keys_set {V} k (v : V) m : JsMap.keys (JsMap.set k v m) = join k (JsMap.keys m).
Proof.
  unfold join. rewrite <- has_keys. destruct (JsMap.has k m) eqn:H.
  - by apply keys_set_present.
  - unfold JsMap.has, JsMap.keys in *.
    induction m as [|[k' v'] m IH]; simpl in *; [done|].
    destruct (String.eqb k k'); [done|]. simpl. by rewrite IH.
Qed.

Lemma leave_absent sid (l : list SocketId) : sid ∉ l -> leave sid l = l.
Proof.
  unfold leave. induction l as [|x l IH]; simpl; [done|].
  intros [Hne Hl]%not_elem_of_cons.
  destruct (String.eqb_spec sid x); [done|]. simpl. by rewrite IH.
Qed.

Lemma keys_delete {V} k (m : JsMap.t V) :
  NoDup (JsMap.keys m) -> JsMap.keys (JsMap.delete k m) = leave k (JsMap.keys m).
Proof.
  unfold JsMap.keys, leave.
  induction m as [|[k' v'] m IH]; simpl; [done|].
  intros [Hk' Hm]%NoDup_cons.
  destruct (String.eqb_spec k k') as [->|]; simpl.
  - symmetry. by apply leave_absent.
  - by rewrite IH.
Qed.

Lemma elem_of_leave sid s (l : list SocketId) : s ∈ leave sid l <-> s ∈ l /\ s <> sid.
Proof.
  unfold leave. rewrite !list_elem_of_In, List.filter_In.
  destruct (String.eqb_spec sid s); simpl; split; intros []; split; congruence.
Qed.

Lemma NoDup_leave sid (l : list SocketId) : NoDup l -> NoDup (leave sid l).
Proof.
  unfold leave. induction 1 as [|x l Hx Hl IH]; simpl; [constructor|].
  destruct (String.eqb sid x); simpl; [done|].
  constructor; [|done]. intros Hin. apply Hx.
  by apply (elem_of_leave sid x l).
Qed.

Lemma elem_of_join sid s (l : list SocketId) : s ∈ join sid l <-> s ∈ l \/ s = sid.
Proof.
  unfold join. destruct (mem sid l) eqn:H.
  - apply mem_elem_of in H. split; [auto|]. intros [Hs| ->]; done.
  - rewrite elem_of_app, list_elem_of_singleton. done.
Qed.

Lemma NoDup_join sid (l : list SocketId) : NoDup l -> NoDup (join sid l).
Proof.
  intros Hl. unfold join. destruct (mem sid l) eqn:H; [done|].
  apply mem_false in H. apply NoDup_app. split; [done|].
  split; [|apply NoDup_singleton].
  intros x Hx ->%list_elem_of_singleton. done.
Qed.

Lemma consistent_initial : consistent initialWorld.
Proof.
  split; simpl; try done; try constructor; intros s Hs; by apply elem_of_nil in Hs.
Qed.

Lemma consistent_with_auction a w : consistent w -> consistent (with_auction a w).
Proof. intros []. by split. Qed.

Lemma consistent_handle sid now m w :
  sid ∈ sockets w -> consistent w -> consistent (handle sid now m w).1.
Proof.
  intros Hconn Hw. pose proof Hw as [Hb Hc Hnb Hnc Hcb Hcc].
  destruct m; unfold_handlers;
    try (repeat match goal with
           | |- context [match ?x with _ => _ end] => destruct x eqn:?
           end; simpl; auto using consistent_with_auction; fail).
  - (* register:bidder *)
    split; simpl; rewrite ?keys_set; auto using NoDup_join; try congruence.
    intros s [Hs| ->]%elem_of_join; auto.
  - (* register:clerk *)
    split; simpl; rewrite ?keys_set; auto using NoDup_join; try congruence.
    intros s [Hs| ->]%elem_of_join; auto.
  - (* disconnect *)
    unfold on_disconnect. cbn [connectedSockets auctionState sockets in_bidders in_clerks].
    assert (forall s, s ∈ leave sid (in_bidders w) -> s ∈ leave sid (sockets w)) as Hb'.
    { intros s [Hs Hne]%elem_of_leave. apply elem_of_leave. auto. }
    assert (forall s, s ∈ leave sid (in_clerks w) -> s ∈ leave sid (sockets w)) as Hc'.
    { intros s [Hs Hne]%elem_of_leave. apply elem_of_leave. auto. }
    assert (JsMap.has sid (bidders (connectedSockets w)) = mem sid (in_bidders w)) as Fb
      by (rewrite has_keys; congruence).
    assert (JsMap.has sid (clerks (connectedSockets w)) = mem sid (in_clerks w)) as Fc
      by (rewrite has_keys; congruence).
    destruct (JsMap.has sid (bidders (connectedSockets w))) eqn:Eb;
      cbn [connectedSockets clerks bidders fst];
      destruct (JsMap.has sid (clerks (connectedSockets w))) eqn:Ec;
      symmetry in Fb, Fc; try apply mem_false in Fb; try apply mem_false in Fc;
      split; simpl; auto using NoDup_leave;
      rewrite ?keys_delete by congruence; try congruence;
      rewrite ?leave_absent by done; congruence.
Qed.

Lemma consistent_step e w : consistent w -> consistent (step e w).1.
Proof.
  intros Hw. destruct e as [sid|sid now m]; simpl.
  - destruct Hw as [Hb Hc Hnb Hnc Hcb Hcc]. split; simpl; auto.
    + intros s Hs. apply elem_of_join. auto.
    + intros s Hs. apply elem_of_join. auto.
  - destruct (mem sid (sockets w)) eqn:Hconn; [|done].
    apply consistent_handle; [|done]. by apply mem_elem_of.
Qed.

Lemma consistent_run evs w : consistent w -> consistent (run evs w).1.
Proof.
  revert w. induction evs as [|e evs IH]; intros w Hw; [done|].
  cbn [run]. pose proof (consistent_step e w Hw) as H1.
  destruct (step e w) as [w1 out1]. specialize (IH w1 H1).
  by destruct (run evs w1).
Qed.

(** In every reachable state the room of the clerks is the clerk
    registry's key list, the room of the bidders is the bidder registry's,
    and every registered socket is connected. *)
Lemma reachable_consistent w : reachable w -> consistent w.
Proof. intros [evs <-]. apply consistent_run, consistent_initial. Qed.

Lemma NotFound_iff bidId w :
  NotFound bidId w <->
  Forall (fun b => bid_id b <> bidId) (onlineBids (auctionState w)).
Proof.
  unfold NotFound, find_bid_index. rewrite findIndex_None.
  apply Forall_iff. intros b. apply String.eqb_neq.
Qed.

(** ** Bid submission *)

Lemma on_bid_submit_too_low w sid now amount :
  JsMap.has sid (bidders (connectedSockets w)) = true ->
  isLive (auctionState w) = true ->
  (amount <= currentBid (auctionState w))%Z ->
  on_bid_submit sid now amount w =
    (w, [ emit (ToSocket sid) (bid_error (BidTooLow (currentBid (auctionState w)))) ]).
Proof.
  intros Hb Hlive Hle. unfold on_bid_submit.
  apply has_get in Hb as [bidder ->]. rewrite Hlive. simpl.
  by apply Z.leb_le in Hle as ->.
Qed.

(** C6. While the auction is live, any sequence of submissions by
    registered bidders, each with an amount less than or equal to
    [currentBid], leaves the whole state as it was (so [currentBid] and
    the queue never change), and each submission is answered by one
    [bid:error] with the too-low message, sent to its sender's socket
    and to no one else. *)
Theorem low_bids_leave_state (w : World) (subs : list Submission) :
  isLive (auctionState w) = true ->
  Forall (low_submission w) subs ->
  run (map submit_event subs) w = (w, map (too_low_reply w) subs).
Proof.
  intros Hlive Hall. induction Hall as [|s subs (Hconn & Hb & Hle) _ IH]; [done|].
  cbn [map run]. unfold step, submit_event at 1. rewrite Hconn.
  cbn [handle]. rewrite on_bid_submit_too_low; [|done..].
  by rewrite IH.
Qed.

Lemma low_bids_leave_state_witness :
  run (map submit_event [("b1", 7%Z, 95%Z); ("b1", 8%Z, 100%Z)]) live_world =
    (live_world, map (too_low_reply live_world) [("b1", 7%Z, 95%Z); ("b1", 8%Z, 100%Z)]).
Proof.
  apply low_bids_leave_state; [reflexivity|].
  repeat constructor; vm_compute; congruence.
Defined.

(** C7. While the auction is live, a submission by a registered bidder
    with an amount strictly above [currentBid] appends exactly one bid to
    the queue, pending and of that amount, changes nothing else (so
    [currentBid] stays), and emits [bid:confirmed] to the submitting socket
    alone followed by [bid:new] to the room of the clerks. *)
Theorem submit_above_current_queues_bid
    (w : World) (sid : SocketId) (now amount : Z) (bidder : BidderEntry) :
  JsMap.get sid (bidders (connectedSockets w)) = Some bidder ->
  isLive (auctionState w) = true ->
  (currentBid (auctionState w) < amount)%Z ->
  let bid := new_bid (auctionState w) bidder now amount in
  let w' := (on_bid_submit sid now amount w).1 in
  bid_status bid = pending /\ bid_amount bid = amount /\
  onlineBids (auctionState w') = onlineBids (auctionState w) ++ [bid] /\
  w' = with_auction (set_onlineBids (onlineBids (auctionState w) ++ [bid]) (auctionState w)) w /\
  currentBid (auctionState w') = currentBid (auctionState w) /\
  (on_bid_submit sid now amount w).2 =
    [ emit (ToSocket sid) (bid_confirmed bid); emit (ToRoom room_clerks) (bid_new bid) ] /\
  recipients w' (ToSocket sid) = [sid] /\
  recipients w' (ToRoom room_clerks) = in_clerks w.
Proof.
  intros Hb Hlive Hlt. unfold on_bid_submit. rewrite Hb, Hlive. simpl.
  apply Z.leb_gt in Hlt as ->. simpl. repeat split.
Qed.

Lemma submit_above_current_queues_bid_witness :
  onlineBids (auctionState (on_bid_submit "b1" 5 105 live_world).1) =
    [ mkBid "bid_5" "B7" "Ann" 105 (Some 11%Z) 5 pending true ] /\
  (on_bid_submit "b1" 5 105 live_world).2 =
    [ emit (ToSocket "b1")
        (bid_confirmed (mkBid "bid_5" "B7" "Ann" 105 (Some 11%Z) 5 pending true));
      emit (ToRoom room_clerks)
        (bid_new (mkBid "bid_5" "B7" "Ann" 105 (Some 11%Z) 5 pending true)) ].
Proof.
  pose proof (submit_above_current_queues_bid live_world "b1" 5 105
                (mkBidderEntry "B7" "Ann" "b1")
                ltac:(reflexivity) ltac:(reflexivity) ltac:(vm_compute; reflexivity))
    as (_ & _ & Hq & _ & _ & Hout & _).
  split; [exact Hq | exact Hout].
Defined.

(** ** Lot change *)

(** C8. Whatever the prior state, and whatever is waiting in the queue,
    [auction:setLot] from a registered clerk makes the given lot the
    current lot, sets [currentBid] to the given starting bid, empties the
    queue, and emits one [auction:lotChanged] carrying the new lot and the
    new current bid through [io.emit], that is to every connected socket. *)
Theorem setLot_replaces_lot (w : World) (sid : SocketId) (lot : Lot) (startingBid : Z) :
  JsMap.has sid (clerks (connectedSockets w)) = true ->
  let r := on_auction_setLot sid lot (Some startingBid) w in
  currentLot (auctionState r.1) = Some lot /\
  currentBid (auctionState r.1) = startingBid /\
  onlineBids (auctionState r.1) = [] /\
  r.2 = [ emit ToAll (auction_lotChanged (Some lot) startingBid) ] /\
  recipients r.1 ToAll = sockets w.
Proof.
  intros Hc. unfold on_auction_setLot. rewrite Hc, or_num_given.
  simpl. repeat split.
Qed.

Lemma setLot_replaces_lot_witness :
  let r := on_auction_setLot "c1" (mkLot 12 "brass lamp") (Some 50%Z) queued_world in
  onlineBids (auctionState queued_world) <> [] /\
  currentLot (auctionState r.1) = Some (mkLot 12 "brass lamp") /\
  currentBid (auctionState r.1) = 50%Z /\
  onlineBids (auctionState r.1) = [] /\
  r.2 = [ emit ToAll (auction_lotChanged (Some (mkLot 12 "brass lamp")) 50) ] /\
  recipients r.1 ToAll = ["c1"; "b1"].
Proof.
  split; [discriminate|].
  exact (setLot_replaces_lot queued_world "c1" (mkLot 12 "brass lamp") 50 eq_refl).
Defined.

(** ** Accepting a bid whose bidder is gone *)

Lemma bidder_gone_find w b s :
  bidder_gone w b -> find_bidder_socket w (set_status s b) = None.
Proof.
  intros H. unfold find_bidder_socket. apply js_find_None.
  eapply Forall_impl; [exact H|]. simpl. intros e He.
  by apply String.eqb_neq.
Qed.

(** C10. When a registered clerk accepts a queued bid that its id locates
    and no registered bidder carries the bid's [bidderId], the bid is
    marked accepted where it stands, [currentBid] becomes its amount, and
    the only emission is the [auction:bidUpdate] to everyone: the
    [bid:accepted] notice is skipped and nothing is raised. *)
Theorem accept_for_departed_bidder
    (w : World) (sid : SocketId) (bidId : string) (i : nat) (b : Bid) :
  JsMap.has sid (clerks (connectedSockets w)) = true ->
  find_bid_index bidId (auctionState w) = Some i ->
  onlineBids (auctionState w) !! i = Some b ->
  bidder_gone w b ->
  let r := on_bid_accept sid bidId w in
  onlineBids (auctionState r.1) !! i = Some (set_status accepted b) /\
  onlineBids (auctionState r.1) = <[i := set_status accepted b]> (onlineBids (auctionState w)) /\
  currentBid (auctionState r.1) = bid_amount b /\
  r.2 = [ emit ToAll (auction_bidUpdate (bid_amount b) "online" (Some (bid_bidderName b))) ] /\
  recipients r.1 ToAll = sockets w.
Proof.
  intros Hc Hfind Hb Hgone. unfold on_bid_accept.
  rewrite Hc, Hfind, Hb. cbn [negb].
  rewrite (bidder_gone_find _ _ _ Hgone). simpl.
  split; [|done].
  apply list_lookup_insert_eq. by eapply lookup_lt_Some.
Qed.

Lemma accept_for_departed_bidder_witness :
  let r := on_bid_accept "c1" "bid_5" orphan_world in
  onlineBids (auctionState r.1) =
    [ mkBid "bid_5" "B7" "Ann" 105 (Some 11%Z) 5 accepted true ] /\
  currentBid (auctionState r.1) = 105%Z /\
  r.2 = [ emit ToAll (auction_bidUpdate 105 "online" (Some "Ann")) ].
Proof.
  pose proof (accept_for_departed_bidder orphan_world "c1" "bid_5" 0
                (mkBid "bid_5" "B7" "Ann" 105 (Some 11%Z) 5 pending true)
                eq_refl eq_refl eq_refl ltac:(constructor))
    as (_ & Hq & Hcur & Hout & _).
  cbv zeta. split; [exact Hq | split; [exact Hcur | exact Hout]].
Defined.

(** ** Resolving a bid: accept and reject *)

(** What [bid:accept] does once the clerk check has passed and the lookup
    has hit slot [i], which holds [b]. *)
Lemma on_bid_accept_found w sid bidId i b :
  JsMap.has sid (clerks (connectedSockets w)) = true ->
  find_bid_index bidId (auctionState w) = Some i ->
  onlineBids (auctionState w) !! i = Some b ->
  on_bid_accept sid bidId w =
    (with_auction
       (set_currentBid (bid_amount b)
          (set_onlineBids (<[i := set_status accepted b]> (onlineBids (auctionState w)))
             (auctionState w))) w,
     match find_bidder_socket w (set_status accepted b) with
     | Some bidderSocket =>
         [ emit (ToSocket (be_socket bidderSocket)) (bid_accepted (set_status accepted b)) ]
     | None => []
     end ++
     [ emit ToAll (auction_bidUpdate (bid_amount b) "online" (Some (bid_bidderName b))) ]).
Proof. intros Hc Hf Hb. unfold on_bid_accept. by rewrite Hc, Hf, Hb. Qed.

Lemma on_bid_reject_found w sid bidId reason i b :
  JsMap.has sid (clerks (connectedSockets w)) = true ->
  find_bid_index bidId (auctionState w) = Some i ->
  onlineBids (auctionState w) !! i = Some b ->
  on_bid_reject sid bidId reason w =
    (with_auction
       (set_onlineBids (<[i := set_status rejected b]> (onlineBids (auctionState w)))
          (auctionState w)) w,
     match find_bidder_socket w (set_status rejected b) with
     | Some bidderSocket =>
         [ emit (ToSocket (be_socket bidderSocket))
             (bid_rejected (set_status rejected b) reason) ]
     | None => []
     end).
Proof. intros Hc Hf Hb. unfold on_bid_reject. by rewrite Hc, Hf, Hb. Qed.

Lemma find_bid_index_lookup bidId a i :
  find_bid_index bidId a = Some i ->
  exists b, onlineBids a !! i = Some b /\ bid_id b = bidId.
Proof.
  intros H. apply findIndex_lookup in H as (b & Hb & Hid).
  exists b. split; [done|]. by apply String.eqb_eq.
Qed.

(** Marking the located bid keeps it located: the lookup reads ids only. *)
Lemma find_bid_index_marked bidId a i b s z :
  find_bid_index bidId a = Some i ->
  onlineBids a !! i = Some b ->
  find_bid_index bidId
    (set_currentBid z (set_onlineBids (<[i := set_status s b]> (onlineBids a)) a)) = Some i /\
  find_bid_index bidId
    (set_onlineBids (<[i := set_status s b]> (onlineBids a)) a) = Some i.
Proof.
  intros Hf Hb. unfold find_bid_index in *. simpl.
  assert (String.eqb (bid_id (set_status s b)) bidId = true) as Hp.
  { apply findIndex_lookup in Hf as (b' & Hb' & Hid).
    assert (b' = b) as -> by congruence. exact Hid. }
  split; by apply (findIndex_insert _ _ _ _ Hf).
Qed.

(** C1 (as amended). For a registered clerk: on an id that no bid of
    [onlineBids] carries, accept and reject change nothing and emit nothing.
    On an id that locates a bid, accept marks that bid accepted where it
    stands, so the queue keeps its length and the same id locates the
    same slot afterwards; a second accept with that id then returns
    exactly what the first returned (the state, hence [currentBid], is
    unchanged and the same events are emitted again), and a reject with
    that id leaves [currentBid] unchanged and marks the bid rejected. *)
Theorem accept_then_resolve_again
    (w : World) (sid : SocketId) (bidId : string) (reason : option string) :
  JsMap.has sid (clerks (connectedSockets w)) = true ->
  match find_bid_index bidId (auctionState w) with
  | None =>
      on_bid_accept sid bidId w = (w, []) /\
      on_bid_reject sid bidId reason w = (w, [])
  | Some i =>
      let r1 := on_bid_accept sid bidId w in
      let r2 := on_bid_reject sid bidId reason r1.1 in
      find_bid_index bidId (auctionState r1.1) = Some i /\
      length (onlineBids (auctionState r1.1)) = length (onlineBids (auctionState w)) /\
      bid_status <$> onlineBids (auctionState r1.1) !! i = Some accepted /\
      on_bid_accept sid bidId r1.1 = r1 /\
      currentBid (auctionState r2.1) = currentBid (auctionState r1.1) /\
      bid_status <$> onlineBids (auctionState r2.1) !! i = Some rejected
  end.
Proof.
  intros Hc. destruct (find_bid_index bidId (auctionState w)) as [i|] eqn:Hf.
  - destruct (find_bid_index_lookup _ _ _ Hf) as (b & Hb & _).
    pose proof (lookup_lt_Some _ _ _ Hb) as Hlt.
    cbv zeta. rewrite (on_bid_accept_found _ _ _ _ _ Hc Hf Hb). cbn [fst].
    set (w1 := with_auction _ w).
    assert (find_bid_index bidId (auctionState w1) = Some i) as Hf1
      by apply (find_bid_index_marked bidId _ i b accepted (bid_amount b) Hf Hb).
    assert (onlineBids (auctionState w1) !! i = Some (set_status accepted b)) as Hb1
      by (simpl; by apply list_lookup_insert_eq).
    assert (JsMap.has sid (clerks (connectedSockets w1)) = true) as Hc1 by done.
    split; [done|]. split; [simpl; apply length_insert|].
    split; [by rewrite Hb1|]. split.
    + rewrite (on_bid_accept_found _ _ _ _ _ Hc1 Hf1 Hb1).
      unfold w1, with_auction, set_currentBid, set_onlineBids. simpl.
      by rewrite list_insert_insert_eq.
    + rewrite (on_bid_reject_found _ _ _ _ _ _ Hc1 Hf1 Hb1). simpl.
      split; [done|].
      rewrite list_insert_insert_eq, list_lookup_insert_eq; done.
  - unfold on_bid_accept, on_bid_reject. by rewrite Hc, Hf.
Qed.

Lemma accept_then_resolve_again_witness :
  let r1 := on_bid_accept "c1" "bid_5" queued_world in
  find_bid_index "bid_5" (auctionState r1.1) = Some 0 /\
  on_bid_accept "c1" "bid_5" r1.1 = r1.
Proof.
  pose proof (accept_then_resolve_again queued_world "c1" "bid_5" None eq_refl) as H.
  change (find_bid_index "bid_5" (auctionState queued_world)) with (Some 0) in H.
  cbv zeta in *. destruct H as (H1 & _ & _ & H2 & _). by split.
Defined.

Lemma queued_world_reachable : reachable queued_world.
Proof. exists queued_events. reflexivity. Qed.

(** C1 (as stated) fails. In a reachable state with Ann's bid queued, after
    the clerk has accepted it the same id is still found, the bid is still in
    the queue, a second accept emits its notices again, and a reject
    changes the state. *)
Lemma second_resolve_finds_the_bid :
  reachable queued_world /\
  let r1 := on_bid_accept "c1" "bid_5" queued_world in
  ~ NotFound "bid_5" r1.1 /\
  onlineBids (auctionState r1.1) <> [] /\
  (on_bid_accept "c1" "bid_5" r1.1).2 <> [] /\
  (on_bid_reject "c1" "bid_5" None r1.1).1 <> r1.1.
Proof.
  split; [apply queued_world_reachable|].
  vm_compute. repeat split; discriminate.
Qed.

(** ** The queue and its pending view *)

Lemma is_pending_true b : is_pending b = true <-> bid_status b = pending.
Proof. unfold is_pending. destruct (bid_status b); simpl; split; congruence. Qed.

Lemma filter_pending_all_pending (l : list Bid) :
  all_pending (List.filter is_pending l).
Proof.
  apply List.Forall_forall. intros b Hin.
  apply List.filter_In in Hin as [_ Hp]. by apply is_pending_true.
Qed.

Lemma pending_view_all_pending (a : AuctionState) :
  all_pending (route_online_bids a).1.
Proof. apply filter_pending_all_pending. Qed.

(** The pending view of a queue whose slot [i] now holds a resolved bid is
    the pending view of the rest. *)
Lemma pending_view_resolved (l : list Bid) i b s :
  l !! i = Some b -> s <> pending ->
  List.filter is_pending (<[i := set_status s b]> l) =
    List.filter is_pending (take i l) ++ List.filter is_pending (drop (S i) l).
Proof.
  intros Hb Hs.
  rewrite insert_take_drop by (by eapply lookup_lt_Some).
  rewrite List.filter_app. simpl.
  replace (is_pending (set_status s b)) with false; [done|].
  unfold is_pending. simpl. by destruct s.
Qed.

(** C2 (as amended). When a registered clerk accepts or rejects a bid that
    the id locates in slot [i], the bid stays in [onlineBids], in the same
    slot, with its status set to accepted or rejected, and every other slot
    is untouched; what loses the bid is the pending view that the routes
    compute by filtering [onlineBids] on the status, which holds bids of
    status pending only. *)
Theorem resolved_bid_stays_in_queue
    (w : World) (sid : SocketId) (bidId : string) (reason : option string)
    (i : nat) (b : Bid) :
  JsMap.has sid (clerks (connectedSockets w)) = true ->
  find_bid_index bidId (auctionState w) = Some i ->
  onlineBids (auctionState w) !! i = Some b ->
  let l := onlineBids (auctionState w) in
  let wa := (on_bid_accept sid bidId w).1 in
  let wr := (on_bid_reject sid bidId reason w).1 in
  onlineBids (auctionState wa) = <[i := set_status accepted b]> l /\
  onlineBids (auctionState wr) = <[i := set_status rejected b]> l /\
  (route_online_bids (auctionState wa)).2 !! i = Some (set_status accepted b) /\
  (route_online_bids (auctionState wr)).2 !! i = Some (set_status rejected b) /\
  (route_online_bids (auctionState wa)).1 =
    List.filter is_pending (take i l) ++ List.filter is_pending (drop (S i) l) /\
  (route_online_bids (auctionState wr)).1 =
    List.filter is_pending (take i l) ++ List.filter is_pending (drop (S i) l) /\
  all_pending (route_online_bids (auctionState wa)).1 /\
  all_pending (route_online_bids (auctionState wr)).1.
Proof.
  intros Hc Hf Hb. cbv zeta.
  pose proof (lookup_lt_Some _ _ _ Hb) as Hlt.
  rewrite (on_bid_accept_found _ _ _ _ _ Hc Hf Hb).
  rewrite (on_bid_reject_found _ _ _ _ _ _ Hc Hf Hb).
  unfold route_online_bids. cbn [fst snd with_auction auctionState set_currentBid
    set_onlineBids onlineBids].
  rewrite !list_lookup_insert_eq by done.
  rewrite !(pending_view_resolved _ _ _ _ Hb) by done.
  repeat split; apply Forall_app; split; apply filter_pending_all_pending.
Qed.

Lemma resolved_bid_stays_in_queue_witness :
  onlineBids (auctionState (on_bid_accept "c1" "bid_5" queued_world).1) =
    [ mkBid "bid_5" "B7" "Ann" 105 (Some 11%Z) 5 accepted true ] /\
  (route_online_bids (auctionState (on_bid_accept "c1" "bid_5" queued_world).1)).1 = [].
Proof.
  pose proof (resolved_bid_stays_in_queue queued_world "c1" "bid_5" None 0
                (mkBid "bid_5" "B7" "Ann" 105 (Some 11%Z) 5 pending true)
                eq_refl eq_refl eq_refl) as H.
  cbv zeta in H. destruct H as (H1 & _ & _ & _ & H2 & _).
  split; [exact H1 | exact H2].
Defined.

Lemma accepted_world_reachable : reachable accepted_world.
Proof. exists accepted_events. reflexivity. Qed.

(** C2 (as stated) fails: after one accept the queue of a reachable state
    holds a bid whose status is accepted. *)
Lemma queue_holds_accepted_bid :
  reachable accepted_world /\
  ~ all_pending (onlineBids (auctionState accepted_world)) /\
  length (onlineBids (auctionState accepted_world)) =
    length (onlineBids (auctionState queued_world)).
Proof.
  split; [apply accepted_world_reachable|]. split; [|reflexivity].
  intros H. inversion H as [|b l Hb _]. discriminate Hb.
Qed.

(** ** The current bid *)

Lemma on_disconnect_currentBid sid w :
  currentBid (auctionState (on_disconnect sid w).1) = currentBid (auctionState w).
Proof.
  unfold on_disconnect. simpl.
  destruct (JsMap.has sid (bidders (connectedSockets w))); simpl;
    by destruct (JsMap.has sid (clerks (connectedSockets w))).
Qed.

Lemma on_disconnect_currentBid' sid w :
  currentBid (auctionState (on_disconnect sid w).1) =
    if JsMap.has sid (clerks (connectedSockets w))
    then currentBid (auctionState w) else currentBid (auctionState w).
Proof. rewrite on_disconnect_currentBid. by destruct (JsMap.has _ _). Qed.

Lemma keeps_price_step e w :
  keeps_price e = true ->
  currentBid (auctionState (step e w).1) = currentBid (auctionState w).
Proof.
  destruct e as [sid|sid now m]; [done|]. intros Hk. unfold step.
  destruct (mem sid (sockets w)); [|done].
  destruct m; try discriminate Hk; [| | | |apply on_disconnect_currentBid];
    unfold_handlers; split_tests.
Qed.

Lemma keeps_price_run evs w :
  forallb keeps_price evs = true ->
  currentBid (auctionState (run evs w).1) = currentBid (auctionState w).
Proof.
  revert w. induction evs as [|e evs IH]; intros w; [done|].
  cbn [forallb run]. intros [He Hevs]%andb_prop.
  pose proof (keeps_price_step e w He) as Hstep.
  destruct (step e w) as [w1 out1]. specialize (IH w1 Hevs).
  destruct (run evs w1) as [w2 out2]. simpl in *. congruence.
Qed.

(** C3 (as amended). After any inbound event, [currentBid] is: the given
    amount after [auction:updateBid] from a registered clerk, be it above
    or below the former value; the located bid's amount after [bid:accept]
    from a registered clerk; the given starting bid, or 0 when it is
    missing or 0, after [auction:setLot] and [auction:start] from a
    registered clerk; 0 after [auction:sold] and [auction:end] from a
    registered clerk; and what it was after every other event and after
    any event from a socket that is not a registered clerk. *)
Theorem currentBid_after_event (w : World) (sid : SocketId) (now : Z) (m : ClientMsg) :
  currentBid (auctionState (handle sid now m w).1) =
    let a := auctionState w in
    if JsMap.has sid (clerks (connectedSockets w)) then
      match m with
      | auction_updateBid amount _ => amount
      | bid_accept bidId =>
          match find_bid_index bidId a with
          | Some i => default (currentBid a) (bid_amount <$> onlineBids a !! i)
          | None => currentBid a
          end
      | auction_setLot _ startingBid | auction_start _ startingBid _ =>
          or_num startingBid 0
      | auction_sold _ _ _ | auction_end => 0%Z
      | _ => currentBid a
      end
    else currentBid a.
Proof.
  cbv zeta. destruct m; [| | | | | | | | | |apply on_disconnect_currentBid'];
    unfold_handlers.
  all: destruct (JsMap.has sid (clerks (connectedSockets w))) eqn:Hc; cbn [negb fst];
    try reflexivity.
  all: split_tests.
Qed.

Lemma live_world_reachable : reachable live_world.
Proof. exists live_events. reflexivity. Qed.

(** C3 (as stated) fails. With lot 11 current throughout: a floor update
    of 50 takes [currentBid] from 100 down to 50; and once the floor has
    gone to 200, accepting the queued bid of 105 takes it down to 105. *)
Lemma clerk_commands_lower_currentBid :
  reachable live_world /\ reachable queued_world /\
  (let w1 := (step (Receive "c1" 9 (auction_updateBid 50 None)) live_world).1 in
   currentLot (auctionState w1) = currentLot (auctionState live_world) /\
   ~ (currentBid (auctionState live_world) <= currentBid (auctionState w1))%Z) /\
  (let w1 := (step (Receive "c1" 9 (auction_updateBid 200 None)) queued_world).1 in
   let w2 := (step (Receive "c1" 10 (bid_accept "bid_5")) w1).1 in
   currentLot (auctionState w2) = currentLot (auctionState queued_world) /\
   (currentBid (auctionState queued_world) <= currentBid (auctionState w1))%Z /\
   ~ (currentBid (auctionState w1) <= currentBid (auctionState w2))%Z).
Proof.
  split; [apply live_world_reachable|]. split; [apply queued_world_reachable|].
  vm_compute. repeat split; try congruence; intros H; by apply H.
Qed.

(** ** The clerk check *)

(** C4, on the code. A clerk command from a socket that is not a
    registered clerk leaves the state as it is and reaches no other socket;
    [auction:start] answers the caller with the [error] event, the six
    other commands return without emitting anything. *)
Theorem unauthorized_command_reply (w : World) (sid : SocketId) (now : Z) (m : ClientMsg) :
  clerk_command m = true ->
  JsMap.has sid (clerks (connectedSockets w)) = false ->
  handle sid now m w =
    (w, match m with
        | auction_start _ _ _ => [ emit (ToSocket sid) error_unauthorized ]
        | _ => []
        end).
Proof.
  intros Hm Hc. destruct m; try discriminate Hm; cbn [handle];
    unfold on_auction_start, on_auction_setLot, on_auction_updateBid, on_bid_accept,
      on_bid_reject, on_auction_sold, on_auction_end;
    by rewrite Hc.
Qed.

Lemma unauthorized_command_reply_witness :
  handle "b1" 9 (auction_setLot (mkLot 12 "brass lamp") (Some 50%Z)) live_world =
    (live_world, []) /\
  handle "b1" 9 (auction_start (Some chair) (Some 1%Z) None) live_world =
    (live_world, [ emit (ToSocket "b1") error_unauthorized ]).
Proof.
  split.
  - exact (unauthorized_command_reply live_world "b1" 9
             (auction_setLot (mkLot 12 "brass lamp") (Some 50%Z)) eq_refl eq_refl).
  - exact (unauthorized_command_reply live_world "b1" 9
             (auction_start (Some chair) (Some 1%Z) None) eq_refl eq_refl).
Defined.

(** ** Snapshots on registration *)

(** C5 (as amended). On [register:bidder] the socket receives
    [auction:state] whose payload has exactly the five fields [isLive],
    [currentLot], [currentBid], [bidIncrement] and the number of
    registered bidders: neither the queue nor any bidder identity is in it.
    On [register:clerk] the socket receives [auction:fullState] whose
    payload is the auction state itself, clerk count updated: its
    [onlineBids] is the whole queue of the state, bids of every status
    included, unfiltered. *)
Theorem registration_snapshots (w : World) (sid : SocketId) (ident name : string) :
  let a := auctionState w in
  let n := JsMap.size (JsMap.set sid (mkBidderEntry ident name sid)
                         (bidders (connectedSockets w))) in
  let k := JsMap.size (JsMap.set sid (mkClerkEntry ident name sid)
                         (clerks (connectedSockets w))) in
  (on_register_bidder sid ident name w).2 =
    [ emit (ToSocket sid)
        (auction_state
           {| pub_isLive := isLive a; pub_currentLot := currentLot a;
              pub_currentBid := currentBid a; pub_bidIncrement := bidIncrement a;
              pub_onlineBidders := n |});
      emit (ToRoom room_clerks) (bidders_count n) ] /\
  (on_register_clerk sid ident name w).2 =
    [ emit (ToSocket sid)
        (auction_fullState
           {| isLive := isLive a; currentLot := currentLot a;
              currentBid := currentBid a; bidIncrement := bidIncrement a;
              onlineBids := onlineBids a;
              connectedClients := mkCounts (count_bidders (connectedClients a)) k |}) ] /\
  (on_register_clerk sid ident name w).2 =
    [ emit (ToSocket sid)
        (auction_fullState (auctionState (on_register_clerk sid ident name w).1)) ].
Proof. repeat split. Qed.

(** C5 (as stated) fails on its clerk half: a clerk registering once a bid
    has been accepted receives a snapshot whose queue holds that accepted
    bid. *)
Lemma clerk_snapshot_holds_accepted_bid :
  reachable accepted_world /\
  (on_register_clerk "c2" "clerk_2" "Second Terminal" accepted_world).2 =
    [ emit (ToSocket "c2")
        (auction_fullState
           (mkAuction true (Some chair) 105 5
              [ mkBid "bid_5" "B7" "Ann" 105 (Some 11%Z) 5 accepted true ]
              (mkCounts 1 2))) ] /\
  ~ all_pending [ mkBid "bid_5" "B7" "Ann" 105 (Some 11%Z) 5 accepted true ].
Proof.
  split; [apply accepted_world_reachable|]. split; [reflexivity|].
  intros H. inversion H as [|b l Hb _]. discriminate Hb.
Qed.

(** ** Roles *)

(** C9 (as amended). Registration never refuses or withdraws a role:
    [register:clerk] puts the socket in the clerk registry and leaves the
    bidder registry as it is, [register:bidder] puts it in the bidder
    registry and leaves the clerk registry as it is, so a socket that
    registers under both roles is in both registries.  A registration
    under a role the socket already has replaces its entry: the registry
    keeps its keys and the role count stays what the registry's size was;
    under a role it does not have, the count is that size plus one. *)
Theorem registration_roles (w : World) (sid : SocketId) (ident name : string) :
  let cs := connectedSockets w in
  let wb := (on_register_bidder sid ident name w).1 in
  let wc := (on_register_clerk sid ident name w).1 in
  JsMap.has sid (bidders (connectedSockets wb)) = true /\
  clerks (connectedSockets wb) = clerks cs /\
  JsMap.has sid (clerks (connectedSockets wc)) = true /\
  bidders (connectedSockets wc) = bidders cs /\
  count_bidders (connectedClients (auctionState wb)) =
    (if JsMap.has sid (bidders cs) then JsMap.size (bidders cs)
     else S (JsMap.size (bidders cs))) /\
  count_clerks (connectedClients (auctionState wc)) =
    (if JsMap.has sid (clerks cs) then JsMap.size (clerks cs)
     else S (JsMap.size (clerks cs))) /\
  (if JsMap.has sid (bidders cs)
   then JsMap.keys (bidders (connectedSockets wb)) = JsMap.keys (bidders cs)
   else True) /\
  (if JsMap.has sid (clerks cs)
   then JsMap.keys (clerks (connectedSockets wc)) = JsMap.keys (clerks cs)
   else True).
Proof.
  cbv zeta. unfold on_register_bidder, on_register_clerk. cbn [fst
    auctionState connectedSockets bidders clerks set_count_bidders set_count_clerks
    connectedClients count_bidders count_clerks].
  split; [apply has_set_same|]. split; [done|].
  split; [apply has_set_same|]. split; [done|].
  destruct (JsMap.has sid (bidders (connectedSockets w))) eqn:Hb;
    destruct (JsMap.has sid (clerks (connectedSockets w))) eqn:Hc;
    repeat split;
    auto using @size_set_present, @size_set_absent, @keys_set_present.
Qed.

(** C9 (as stated) fails: the socket is a member of both registries, and
    as a clerk its commands are obeyed. *)
Lemma socket_holds_both_roles :
  reachable both_roles_world /\
  ~ (JsMap.has "s1" (bidders (connectedSockets both_roles_world)) = true ->
     JsMap.has "s1" (clerks (connectedSockets both_roles_world)) = false) /\
  isLive (auctionState
            (step (Receive "s1" 3 (auction_start (Some chair) (Some 100%Z) None))
               both_roles_world).1) = true.
Proof.
  split; [by exists both_roles_events|]. split; [|reflexivity].
  intros H. specialize (H eq_refl). discriminate H.
Qed.

(** * Further properties of the socket service *)

(** ** Invariants of runs *)

Lemma run_invariant (P : World -> Prop) :
  (forall e w, P w -> P (step e w).1) ->
  forall evs w, P w -> P (run evs w).1.
Proof.
  intros Hstep evs. induction evs as [|e evs IH]; intros w Hw; [done|].
  cbn [run]. pose proof (Hstep e w Hw) as H1.
  destruct (step e w) as [w1 out1]. specialize (IH w1 H1).
  by destruct (run evs w1).
Qed.

(** X1. In every reachable state an event sent to a room reaches exactly
    the sockets of the matching registry: the clerks' room holds the
    sockets filed in the clerk registry and no other, the bidders' room
    those of the bidder registry, and every registered socket is among the
    connected sockets that [io.emit] reaches. *)
Theorem rooms_match_registries (w : World) (sid : SocketId) :
  reachable w ->
  (sid ∈ recipients w (ToRoom room_clerks) <->
     JsMap.has sid (clerks (connectedSockets w)) = true) /\
  (sid ∈ recipients w (ToRoom room_bidders) <->
     JsMap.has sid (bidders (connectedSockets w)) = true) /\
  (JsMap.has sid (clerks (connectedSockets w)) = true \/
   JsMap.has sid (bidders (connectedSockets w)) = true ->
   sid ∈ recipients w ToAll).
Proof.
  intros [evs <-].
  pose proof (consistent_run evs _ consistent_initial) as [Rb Rc _ _ Cb Cc].
  set (w := (run evs initialWorld).1) in *. simpl.
  rewrite !has_keys, <- Rb, <- Rc, !mem_elem_of.
  split; [done|]. split; [done|]. intros [H|H]; auto.
Qed.

Lemma rooms_match_registries_witness :
  "c1" ∈ recipients queued_world (ToRoom room_clerks) <->
  JsMap.has "c1" (clerks (connectedSockets queued_world)) = true.
Proof.
  exact (proj1 (rooms_match_registries queued_world "c1"
                  (ex_intro _ queued_events eq_refl))).
Defined.

Section RegistryLemmas.
Context {V : Type}.
Implicit Types (m : JsMap.t V) (k : SocketId) (v : V).

Lemma Forall_map_set (P : SocketId * V -> Prop) k v m :
  Forall P m -> P (k, v) -> Forall P (JsMap.set k v m).
Proof.
  intros Hm Hkv. induction Hm as [|[k' v'] m Hx Hm IH]; simpl.
  - by constructor.
  - destruct (String.eqb k k'); by constructor.
Qed.

Lemma Forall_map_delete (P : SocketId * V -> Prop) k m :
  Forall P m -> Forall P (JsMap.delete k m).
Proof.
  intros Hm. induction Hm as [|[k' v'] m Hx Hm IH]; simpl; [constructor|].
  destruct (String.eqb k k'); [done|by constructor].
Qed.

Lemma size_delete_present k m :
  JsMap.has k m = true -> S (JsMap.size (JsMap.delete k m)) = JsMap.size m.
Proof.
  unfold JsMap.has, JsMap.size.
  induction m as [|[k' v'] m IH]; simpl; [done|].
  destruct (String.eqb k k'); simpl; [done|]. intros H. by rewrite IH.
Qed.

(** [m.set(k, v); m.delete(k)] on a key that was absent gives [m] back. *)
Lemma delete_set_absent k v m :
  JsMap.has k m = false -> JsMap.delete k (JsMap.set k v m) = m.
Proof.
  unfold JsMap.has.
  induction m as [|[k' v'] m IH]; simpl.
  - by rewrite String.eqb_refl.
  - destruct (String.eqb k k') eqn:E; [done|]. simpl. rewrite E.
    intros H. by rewrite IH.
Qed.

Lemma has_delete_same k m :
  NoDup (JsMap.keys m) -> JsMap.has k (JsMap.delete k m) = false.
Proof.
  intros H. rewrite has_keys, keys_delete by done.
  apply mem_false. intros [_ Hne]%elem_of_leave. done.
Qed.

(** With distinct keys, [get] finds any entry of the map under its key. *)
Lemma get_of_entry k v m :
  NoDup (JsMap.keys m) -> (k, v) ∈ m -> JsMap.get k m = Some v.
Proof.
  unfold JsMap.keys.
  induction m as [|[k' v'] m IH]; simpl; [by intros _ ?%elem_of_nil|].
  intros [Hk' Hm]%NoDup_cons [[= -> ->]|Hin]%elem_of_cons.
  - by rewrite String.eqb_refl.
  - destruct (String.eqb_spec k k') as [->|]; [|by apply IH].
    exfalso. apply Hk'. apply list_elem_of_fmap. by exists (k', v).
Qed.
End RegistryLemmas.

Lemma leave_join_absent sid (l : list SocketId) : sid ∉ l -> leave sid (join sid l) = l.
Proof.
  intros H. unfold join. rewrite (proj2 (mem_false sid l) H).
  unfold leave. rewrite List.filter_app. simpl. rewrite String.eqb_refl. simpl.
  rewrite app_nil_r. by apply leave_absent.
Qed.

Lemma mem_leave sid (l : list SocketId) : mem sid (leave sid l) = false.
Proof. apply mem_false. intros [_ H]%elem_of_leave. done. Qed.

(** The handlers other than the registrations and [disconnect] leave the
    registries, the rooms, the connections and the role counts alone. *)
Lemma handle_keeps_registries sid now m w :
  match m with
  | register_bidder _ _ | register_clerk _ _ | disconnect => True
  | _ =>
      let w' := (handle sid now m w).1 in
      connectedSockets w' = connectedSockets w /\
      connectedClients (auctionState w') = connectedClients (auctionState w) /\
      sockets w' = sockets w /\ in_bidders w' = in_bidders w /\
      in_clerks w' = in_clerks w
  end.
Proof.
  destruct m; try done; cbv zeta; unfold_handlers;
    repeat match goal with
      | |- context [match ?x with _ => _ end] => destruct x eqn:?
      end; done.
Qed.

Lemma counts_agree_handle sid now m w :
  counts_agree w -> counts_agree (handle sid now m w).1.
Proof.
  intros [Hb Hc]. pose proof (handle_keeps_registries sid now m w) as Hk.
  unfold counts_agree.
  destruct m; cbv zeta in Hk; cbn [handle] in *;
    try (destruct Hk as (Hs & Ha & _); rewrite Hs, Ha; by split).
  - by split.
  - by split.
  - unfold on_disconnect. simpl.
    destruct (JsMap.has sid (bidders (connectedSockets w))); simpl;
      by destruct (JsMap.has sid (clerks (connectedSockets w))).
Qed.

Lemma entries_keyed_handle sid now m w :
  entries_keyed w -> entries_keyed (handle sid now m w).1.
Proof.
  intros [Hb Hc]. pose proof (handle_keeps_registries sid now m w) as Hk.
  unfold entries_keyed.
  destruct m; cbv zeta in Hk; cbn [handle] in *;
    try (destruct Hk as (Hs & _); rewrite Hs; by split).
  - split; simpl; [by apply Forall_map_set|done].
  - split; simpl; [done|by apply Forall_map_set].
  - unfold on_disconnect. simpl.
    destruct (JsMap.has sid (bidders (connectedSockets w))); simpl;
      destruct (JsMap.has sid (clerks (connectedSockets w))); simpl;
      auto using @Forall_map_delete.
Qed.

Lemma counts_agree_step e w : counts_agree w -> counts_agree (step e w).1.
Proof.
  destruct e as [sid|sid now m]; simpl; [done|].
  destruct (mem sid (sockets w)); [apply counts_agree_handle|done].
Qed.

Lemma entries_keyed_step e w : entries_keyed w -> entries_keyed (step e w).1.
Proof.
  destruct e as [sid|sid now m]; simpl; [done|].
  destruct (mem sid (sockets w)); [apply entries_keyed_handle|done].
Qed.

Lemma counts_agree_run evs : counts_agree (run evs initialWorld).1.
Proof. apply (run_invariant counts_agree); [apply counts_agree_step|by split]. Qed.

Lemma entries_keyed_run evs : entries_keyed (run evs initialWorld).1.
Proof.
  apply (run_invariant entries_keyed); [apply entries_keyed_step|].
  split; constructor.
Qed.

(** X2. In every reachable state the two role counts of [auctionState] are
    the sizes of the two registries, and every registry entry holds the
    socket whose id is its key. *)
Theorem counts_match_registries (w : World) :
  reachable w -> counts_agree w /\ entries_keyed w.
Proof.
  intros [evs <-]. split; [apply counts_agree_run|apply entries_keyed_run].
Qed.

Lemma counts_match_registries_witness :
  counts_agree accepted_world /\ entries_keyed accepted_world.
Proof.
  apply counts_match_registries. exists accepted_events. reflexivity.
Defined.

(** ** What a handler does to the queue *)

Lemma on_disconnect_auction sid w :
  let a' := auctionState (on_disconnect sid w).1 in
  same_lot (auctionState w) a' /\
  currentBid a' = currentBid (auctionState w) /\
  onlineBids a' = onlineBids (auctionState w).
Proof.
  unfold on_disconnect, same_lot. simpl.
  destruct (JsMap.has sid (bidders (connectedSockets w))); simpl;
    by destruct (JsMap.has sid (clerks (connectedSockets w))).
Qed.

Lemma handle_queue_effect sid now m w :
  lot_command m = false ->
  queue_effect (auctionState w) (auctionState (handle sid now m w).1).
Proof.
  intros Hm. destruct m; try discriminate Hm; cbn [handle].
  7: { destruct (on_disconnect_auction sid w) as (? & ? & ?).
       by apply effect_keep. }
  all: unfold_handlers.
  all: repeat match goal with
         | |- context [match ?x with _ => _ end] => destruct x eqn:?
         end.
  all: try (by apply effect_keep).
  - eapply effect_queue; simpl; try done.
    + by destruct (isLive (auctionState w)).
    + split; [done|]. split; [done|]. by eexists.
    + done.
  - eapply (effect_mark _ _ bidId _ _ accepted); unfold same_lot; simpl; eauto.
  - eapply (effect_mark _ _ bidId _ _ accepted); unfold same_lot; simpl; eauto.
  - eapply (effect_mark _ _ bidId _ _ rejected); unfold same_lot; simpl; eauto.
  - eapply (effect_mark _ _ bidId _ _ rejected); unfold same_lot; simpl; eauto.
Qed.

Lemma handle_effect sid now m w :
  auction_effect (auctionState w) (auctionState (handle sid now m w).1).
Proof.
  destruct (lot_command m) eqn:Hm; [|left; by apply handle_queue_effect].
  destruct m; try discriminate Hm; unfold_handlers;
    (destruct (JsMap.has sid (clerks (connectedSockets w)));
     [right; simpl; eauto | left; by apply effect_keep]).
Qed.

Lemma step_queue_effect e w :
  keeps_lot e = true ->
  queue_effect (auctionState w) (auctionState (step e w).1).
Proof.
  destruct e as [sid|sid now m]; simpl; intros Hk.
  - by apply effect_keep.
  - destruct (mem sid (sockets w)); [|by apply effect_keep].
    apply handle_queue_effect. by destruct (lot_command m).
Qed.

Lemma step_effect e w :
  auction_effect (auctionState w) (auctionState (step e w).1).
Proof.
  destruct e as [sid|sid now m]; simpl.
  - left. by apply effect_keep.
  - destruct (mem sid (sockets w)); [apply handle_effect|left; by apply effect_keep].
Qed.

Lemma bid_of_lot_same a a' b s :
  currentLot a' = currentLot a -> bid_of_lot a b -> bid_of_lot a' (set_status s b).
Proof. unfold bid_of_lot. simpl. by intros ->. Qed.

Lemma queue_of_current_lot_effect a a' :
  auction_effect a a' -> queue_of_current_lot a -> queue_of_current_lot a'.
Proof.
  unfold queue_of_current_lot.
  intros [[(_ & Hc & _) Hq|b _ Hb _ (_ & Hc & _) _ Hq|bidId i b s _ Hb (_ & Hc & _) Hq]
         |[Hq _]] H; rewrite Hq.
  - eapply Forall_impl; [exact H|]. intros x. unfold bid_of_lot. by rewrite Hc.
  - apply Forall_app. split.
    + eapply Forall_impl; [exact H|]. intros x. unfold bid_of_lot. by rewrite Hc.
    + constructor; [|constructor]. unfold bid_of_lot in *. by rewrite Hc.
  - apply Forall_insert.
    + eapply Forall_impl; [exact H|]. intros x. unfold bid_of_lot. by rewrite Hc.
    + apply (bid_of_lot_same a); [done|]. by eapply (Forall_lookup_1 _ _ _ _ H).
  - constructor.
Qed.

(** X3. In every reachable state each bid of the queue carries the number
    of the lot that is current (none when no lot is), is flagged online,
    and has an id made of [bid_] and a clock reading: no bid made for an
    earlier lot is ever left in the queue. *)
Theorem queued_bids_are_for_the_current_lot (w : World) :
  reachable w -> queue_of_current_lot (auctionState w).
Proof.
  intros [evs <-].
  apply (run_invariant (fun w => queue_of_current_lot (auctionState w))).
  - intros e w Hq. eapply queue_of_current_lot_effect; [apply step_effect|done].
  - constructor.
Qed.

Lemma queued_bids_are_for_the_current_lot_witness :
  queue_of_current_lot (auctionState accepted_world).
Proof.
  apply queued_bids_are_for_the_current_lot. exists accepted_events. reflexivity.
Defined.



(** X5. In every reachable state [bidIncrement] is not 0: it starts at 5
    and [auction:start] takes 5 for an increment that is missing or 0. *)
Theorem bidIncrement_never_zero (w : World) :
  reachable w -> bidIncrement (auctionState w) <> 0%Z.
Proof.
  intros [evs <-].
  apply (run_invariant (fun w => bidIncrement (auctionState w) <> 0%Z)); [|done].
  intros e w Hinc.
  destruct (step_effect e w)
    as [[(_ & _ & Hi) _|b _ _ _ (_ & _ & Hi) _ _|bidId i b s _ _ (_ & _ & Hi) _]
       |[_ [Hi|[inc Hi]]]];
    rewrite Hi; try done.
  unfold or_num. destruct inc as [v|]; [|done].
  by destruct (Z.eqb_spec v 0).
Qed.

Lemma bidIncrement_never_zero_witness :
  bidIncrement
    (auctionState
       (run (both_roles_events ++
               [ Receive "s1" 3 (auction_start None None (Some 0%Z)) ]) initialWorld).1)
    <> 0%Z.
Proof.
  apply bidIncrement_never_zero. by eexists.
Defined.

(** ** Disconnecting *)

Ltac world_cbn :=
  cbn [sockets connectedSockets auctionState in_bidders in_clerks bidders clerks
       fst snd set_count_bidders set_count_clerks connectedClients count_bidders
       count_clerks isLive currentLot currentBid bidIncrement onlineBids].

Ltac world_cbn_all :=
  cbn [sockets connectedSockets auctionState in_bidders in_clerks bidders clerks
       fst snd set_count_bidders set_count_clerks connectedClients count_bidders
       count_clerks isLive currentLot currentBid bidIncrement onlineBids] in *.

Lemma consistent_has_connected w sid :
  consistent w -> mem sid (sockets w) = false ->
  JsMap.has sid (bidders (connectedSockets w)) = false /\
  JsMap.has sid (clerks (connectedSockets w)) = false /\
  (sid ∉ in_bidders w) /\ (sid ∉ in_clerks w).
Proof.
  intros [Hb Hc _ _ Hcb Hcc] Hs%mem_false.
  assert (sid ∉ in_bidders w) as Nb by (intros H; by apply Hs, Hcb).
  assert (sid ∉ in_clerks w) as Nc by (intros H; by apply Hs, Hcc).
  rewrite !has_keys, <- Hb, <- Hc. by rewrite !(proj2 (mem_false _ _)).
Qed.

(** X6. In a reachable state, the disconnection of a socket registered as
    bidder takes the bidder count down by exactly one, sends the new count
    to the clerks' room and nothing else, and leaves the queue, with that
    bidder's bids, as it is.  The socket is then in neither registry, and
    no later message bearing its id reaches a handler. *)
Theorem bidder_disconnect (w : World) (sid : SocketId) (now : Z) :
  reachable w ->
  mem sid (sockets w) = true ->
  JsMap.has sid (bidders (connectedSockets w)) = true ->
  let r := step (Receive sid now disconnect) w in
  S (count_bidders (connectedClients (auctionState r.1))) =
    count_bidders (connectedClients (auctionState w)) /\
  r.2 = [ emit (ToRoom room_clerks)
            (bidders_count (count_bidders (connectedClients (auctionState r.1)))) ] /\
  onlineBids (auctionState r.1) = onlineBids (auctionState w) /\
  JsMap.has sid (bidders (connectedSockets r.1)) = false /\
  JsMap.has sid (clerks (connectedSockets r.1)) = false /\
  forall now' m, step (Receive sid now' m) r.1 = (r.1, []).
Proof.
  intros [evs <-] Hconn Hb.
  pose proof (consistent_run evs _ consistent_initial) as Hw.
  pose proof (counts_agree_run evs) as [Hnb Hnc].
  set (w := (run evs initialWorld).1) in *.
  destruct Hw as [Rb Rc Db Dc _ _].
  cbv zeta. unfold step. rewrite Hconn. cbn [handle]. unfold on_disconnect.
  world_cbn. rewrite Hb. world_cbn.
  assert (mem sid (leave sid (sockets w)) = false) as Hgone by apply mem_leave.
  destruct (JsMap.has sid (clerks (connectedSockets w))) eqn:Hc; world_cbn;
    rewrite ?Hgone, Hnb, <- (size_delete_present sid _ Hb);
    repeat split; try (apply has_delete_same; congruence); done.
Qed.

Lemma bidder_disconnect_witness :
  let r := step (Receive "b1" 6 disconnect) queued_world in
  count_bidders (connectedClients (auctionState r.1)) = 0 /\
  r.2 = [ emit (ToRoom room_clerks) (bidders_count 0) ] /\
  onlineBids (auctionState r.1) = onlineBids (auctionState queued_world) /\
  step (Receive "b1" 7 (bid_submit 200)) r.1 = (r.1, []).
Proof.
  pose proof (bidder_disconnect queued_world "b1" 6
                (ex_intro _ queued_events eq_refl) eq_refl eq_refl) as H.
  cbv zeta in *. destruct H as (H1 & H2 & H3 & _ & _ & H4).
  split; [exact (eq_add_S _ 0 H1)|]. split; [exact H2|]. split; [exact H3|]. apply H4.
Defined.

(** X7. In a reachable state, a socket that connects, registers under either
    role and disconnects leaves the whole state exactly as it found it:
    registries, rooms, connections, counts and auction record. *)
Theorem register_disconnect_round_trip
    (w : World) (sid : SocketId) (t1 t2 : Z) (ident name : string) :
  reachable w ->
  mem sid (sockets w) = false ->
  (run [ Connect sid; Receive sid t1 (register_bidder ident name);
         Receive sid t2 disconnect ] w).1 = w /\
  (run [ Connect sid; Receive sid t1 (register_clerk ident name);
         Receive sid t2 disconnect ] w).1 = w.
Proof.
  intros [evs <-] Hout.
  pose proof (consistent_run evs _ consistent_initial) as Hw.
  pose proof (counts_agree_run evs) as [Hnb Hnc].
  set (w := (run evs initialWorld).1) in *.
  destruct (consistent_has_connected w sid Hw Hout) as (Hb & Hc & Nb & Nc).
  pose proof (proj1 (mem_false _ _) Hout) as Ns.
  assert (mem sid (join sid (sockets w)) = true) as Hin
    by (apply mem_elem_of, elem_of_join; auto).
  destruct w as [[live lot cur inc q [nb nc]] [bs cs] ss rb rc].
  unfold run, step, handle, on_register_bidder, on_register_clerk, on_disconnect.
  world_cbn_all. rewrite Hin. world_cbn. rewrite Hin. world_cbn.
  rewrite !has_set_same, Hb. world_cbn. rewrite !has_set_same, Hc. world_cbn.
  rewrite !delete_set_absent, !leave_join_absent, !leave_absent by done.
  by rewrite <- Hnb, <- Hnc.
Qed.

Lemma register_disconnect_round_trip_witness :
  (run [ Connect "b2"; Receive "b2" 7 (register_bidder "B8" "Bob");
         Receive "b2" 8 disconnect ] queued_world).1 = queued_world.
Proof.
  exact (proj1 (register_disconnect_round_trip queued_world "b2" 7 8 "B8" "Bob"
                  (ex_intro _ queued_events eq_refl) eq_refl)).
Defined.

(** ** Who is sent what *)

Lemma js_find_Some {A} (p : A -> bool) (l : list A) x :
  js_find p l = Some x -> x ∈ l /\ p x = true.
Proof.
  induction l as [|y l IH]; simpl; [done|].
  destruct (p y) eqn:E.
  - intros [= ->]. split; [left|done].
  - intros H. destruct (IH H). split; [by right|done].
Qed.

Lemma find_bidder_socket_Some w b entry :
  find_bidder_socket w b = Some entry ->
  entry ∈ JsMap.values (bidders (connectedSockets w)) /\
  be_bidderId entry = bid_bidderId b.
Proof.
  intros [Hin Hp]%js_find_Some. split; [done|]. by apply String.eqb_eq.
Qed.

(** X8. Whatever the event and the state, a handler sends the snapshots,
    [bid:error], [bid:confirmed] and [error] to its own socket only,
    [bid:new] and [bidders:count] to the clerks' room only, [bid:accepted]
    and [bid:rejected] to the socket of a registry entry that carries the
    bid's [bidderId], and to everyone only the five auction events, none
    of which holds a bid record or the queue. *)
Theorem emissions_are_addressed
    (w : World) (sid : SocketId) (now : Z) (m : ClientMsg) (e : Emission) :
  e ∈ (handle sid now m w).2 -> addressed w sid e.
Proof.
  destruct m; cbn [handle].
  11: { unfold on_disconnect. simpl.
        destruct (JsMap.has sid (bidders (connectedSockets w))); simpl.
        - intros ->%list_elem_of_singleton. done.
        - by intros ?%elem_of_nil. }
  all: unfold_handlers.
  all: repeat match goal with
         | |- context [match ?x with _ => _ end] => destruct x eqn:?
         end.
  all: cbn [snd app].
  all: repeat (rewrite elem_of_cons); rewrite ?elem_of_nil.
  all: intros H; repeat destruct H as [H|H]; try done; subst e; try done.
  all: match goal with
       | Hf : find_bidder_socket _ _ = Some _ |- _ =>
           apply find_bidder_socket_Some in Hf as [? ?];
           unfold addressed; cbn [event audience]; eauto
       end.
Qed.

Lemma emissions_are_addressed_witness :
  addressed queued_world "c1"
    (emit (ToSocket "b1")
       (bid_accepted (mkBid "bid_5" "B7" "Ann" 105 (Some 11%Z) 5 accepted true))).
Proof.
  apply (emissions_are_addressed queued_world "c1" 6 (bid_accept "bid_5")).
  vm_compute. left.
Defined.

(** X9. In a reachable state, [bid:accepted] and [bid:rejected] only ever
    go to a socket that is connected, sits in the bidders' room and is
    filed in the bidder registry under the [bidderId] of the bid. *)
Theorem notices_reach_registered_bidders
    (w : World) (sid : SocketId) (now : Z) (m : ClientMsg) (e : Emission) :
  reachable w ->
  e ∈ (handle sid now m w).2 ->
  match event e with
  | bid_accepted b | bid_rejected b _ =>
      exists s entry,
        audience e = ToSocket s /\
        JsMap.get s (bidders (connectedSockets w)) = Some entry /\
        be_bidderId entry = bid_bidderId b /\
        s ∈ in_bidders w /\ s ∈ sockets w
  | _ => True
  end.
Proof.
  intros [evs <-].
  pose proof (consistent_run evs _ consistent_initial) as [Rb _ Db _ Cb _].
  pose proof (entries_keyed_run evs) as [Kb _].
  set (w := (run evs initialWorld).1) in *.
  assert (forall b entry, find_bidder_socket w b = Some entry ->
            exists s entry',
              ToSocket (be_socket entry) = ToSocket s /\
              JsMap.get s (bidders (connectedSockets w)) = Some entry' /\
              be_bidderId entry' = bid_bidderId b /\
              s ∈ in_bidders w /\ s ∈ sockets w) as Hnotice.
  { intros b entry [Hin Hid]%find_bidder_socket_Some.
    apply list_elem_of_fmap in Hin as ([k v] & -> & Hkv). simpl in *.
    pose proof (proj1 (Forall_forall _ _) Kb _ Hkv) as Hk. simpl in Hk.
    assert (k ∈ in_bidders w) as Hroom.
    { rewrite Rb. apply list_elem_of_fmap. by exists (k, v). }
    exists k, v. rewrite Hk. repeat split; auto.
    apply get_of_entry; [|done]. by rewrite <- Rb. }
  destruct m; cbn [handle].
  11: { unfold on_disconnect. simpl.
        destruct (JsMap.has sid (bidders (connectedSockets w))); simpl.
        - by intros ->%list_elem_of_singleton.
        - by intros ?%elem_of_nil. }
  all: unfold_handlers.
  all: repeat match goal with
         | |- context [match ?x with _ => _ end] => destruct x eqn:?
         end.
  all: cbn [snd app].
  all: repeat (rewrite elem_of_cons); rewrite ?elem_of_nil.
  all: intros H; repeat destruct H as [H|H]; try done; subst e; try done.
  all: cbn [event audience] in *.
  all: match goal with
       | H : bid_accepted _ = bid_accepted _ |- _ => injection H as <-
       | H : bid_rejected _ _ = bid_rejected _ _ |- _ => injection H as <- <-
       end.
  all: by apply Hnotice.
Qed.

Lemma notices_reach_registered_bidders_witness :
  exists s entry,
    ToSocket "b1" = ToSocket s /\
    JsMap.get s (bidders (connectedSockets queued_world)) = Some entry /\
    be_bidderId entry = "B7" /\
    s ∈ in_bidders queued_world /\ s ∈ sockets queued_world.
Proof.
  apply (notices_reach_registered_bidders queued_world "c1" 6 (bid_accept "bid_5")
           (emit (ToSocket "b1")
              (bid_accepted (mkBid "bid_5" "B7" "Ann" 105 (Some 11%Z) 5 accepted true)))
           (ex_intro _ queued_events eq_refl)).
  vm_compute. left.
Defined.

(** ** Runs under a condition on the events *)

Lemma run_invariant_on (Q : Event -> bool) (P : World -> Prop) (R : Emission -> Prop) :
  (forall e w, Q e = true -> P w -> P (step e w).1 /\ Forall R (step e w).2) ->
  forall evs w, forallb Q evs = true -> P w ->
    P (run evs w).1 /\ Forall R (run evs w).2.
Proof.
  intros Hstep evs. induction evs as [|e evs IH]; intros w Hq Hw; [by split|].
  cbn [forallb] in Hq. apply andb_prop in Hq as [He Hevs].
  cbn [run]. destruct (Hstep e w He Hw) as [H1 H2].
  destruct (step e w) as [w1 out1]. destruct (IH w1 Hevs H1) as [H3 H4].
  destruct (run evs w1) as [w2 out2]. split; [done|]. by apply Forall_app.
Qed.

(** ** Bids that share an id *)

Lemma findIndex_least {A} (p : A -> bool) (l : list A) i :
  findIndex p l = Some i ->
  forall j x, j < i -> l !! j = Some x -> p x = false.
Proof.
  revert i. induction l as [|y l IH]; intros i; simpl; [done|].
  destruct (p y) eqn:E.
  - intros [= <-] j x Hj. lia.
  - destruct (findIndex p l) as [k|]; simpl; [|done].
    intros [= <-] [|j] x Hj; simpl.
    + by intros [= <-].
    + apply (IH k eq_refl). lia.
Qed.

Lemma shadowed_effect i j b2 a a' :
  i < j -> queue_effect a a' -> shadowed i j b2 a -> shadowed i j b2 a'.
Proof.
  intros Hij [_ Hq|b _ _ _ _ _ Hq|bidId k b s Hf Hb _ Hq] (b1 & H1 & Hid & H2);
    unfold shadowed; rewrite Hq.
  - eauto.
  - exists b1. split; [by apply lookup_app_l_Some|]. split; [done|].
    by apply lookup_app_l_Some.
  - pose proof (lookup_lt_Some _ _ _ Hb) as Hk.
    unfold find_bid_index in Hf.
    destruct (findIndex_lookup _ _ _ Hf) as (b' & Hb' & Hp).
    assert (b' = b) as -> by congruence.
    destruct (decide (k = j)) as [->|Hkj].
    { assert (b = b2) as -> by congruence.
      pose proof (findIndex_least _ _ _ Hf i b1 Hij H1) as Hn. simpl in Hn.
      rewrite Hid in Hn. congruence. }
    destruct (decide (k = i)) as [->|Hki].
    + assert (b = b1) as -> by congruence.
      exists (set_status s b1). rewrite list_lookup_insert_eq by done.
      by rewrite list_lookup_insert_ne.
    + exists b1. by rewrite !list_lookup_insert_ne.
Qed.

(** X10. A queued bid that stands behind a bid with the same id is never
    touched: over any run without a lot command, whatever is accepted or
    rejected and by whom, it keeps its slot and its status. *)
Theorem shadowed_bid_is_never_resolved
    (evs : list Event) (w : World) (i j : nat) (b1 b2 : Bid) :
  onlineBids (auctionState w) !! i = Some b1 ->
  onlineBids (auctionState w) !! j = Some b2 ->
  i < j ->
  bid_id b1 = bid_id b2 ->
  forallb keeps_lot evs = true ->
  onlineBids (auctionState (run evs w).1) !! j = Some b2.
Proof.
  intros H1 H2 Hij Hid Hevs.
  destruct (run_invariant_on keeps_lot
              (fun w => shadowed i j b2 (auctionState w)) (fun _ => True))
    with (evs := evs) (w := w) as [(b & _ & _ & H) _]; try done.
  - intros e w0 He Hs. split; [|by apply Forall_true].
    eapply shadowed_effect; [done|by apply step_queue_effect|done].
  - by exists b1.
Qed.

Lemma shadowed_bid_is_never_resolved_witness :
  onlineBids (auctionState
    (run [ Receive "c1" 6 (bid_accept "bid_5"); Receive "c1" 7 (bid_reject "bid_5" None);
           Receive "c1" 8 (bid_accept "bid_5") ] twin_world).1) !! 1 =
    Some (mkBid "bid_5" "B7" "Ann" 110 (Some 11%Z) 5 pending true).
Proof.
  apply (shadowed_bid_is_never_resolved _ twin_world 0 1
           (mkBid "bid_5" "B7" "Ann" 105 (Some 11%Z) 5 pending true));
    [reflexivity|reflexivity|lia|reflexivity|reflexivity].
Defined.

Lemma bid_id_at_inj (t1 t2 : Z) : bid_id_at t1 = bid_id_at t2 -> t1 = t2.
Proof.
  intros H. cbv [bid_id_at String.append] in H. injection H as H.
  apply DecimalZ.to_int_inj.
  assert (forall z, NilZero.int_of_string (NilZero.string_of_int (Z.to_int z))
                    = Some (Z.to_int z)) as Hisi.
  { intros z. apply NilZero.isi; destruct z; simpl; try discriminate;
      intros [= Hn]; by apply DecimalPos.Unsigned.to_uint_nonnil in Hn. }
  pose proof (Hisi t1) as E1. rewrite H, Hisi in E1. congruence.
Qed.

(** X11. The bids that two accepted submissions create have the same id
    exactly when the clock gave both the same reading. *)
Theorem bid_ids_collide_iff_same_clock
    (a a' : AuctionState) (e e' : BidderEntry) (t t' amount amount' : Z) :
  bid_id (new_bid a e t amount) = bid_id (new_bid a' e' t' amount') <-> t = t'.
Proof. simpl. split; [apply bid_id_at_inj|by intros ->]. Qed.

(** ** Between two lot commands *)

Lemma unmarked_effect a a' :
  queue_effect a a' ->
  (set_status pending <$> onlineBids a) `prefix_of` (set_status pending <$> onlineBids a').
Proof.
  intros [_ Hq|b _ _ _ _ _ Hq|bidId k b s _ Hb _ Hq]; rewrite Hq.
  - done.
  - rewrite fmap_app. by apply prefix_app_r.
  - rewrite list_fmap_insert. simpl.
    rewrite list_insert_id; [done|].
    by rewrite list_lookup_fmap, Hb.
Qed.

(** X12. Over any run without a lot command ([auction:start],
    [auction:setLot], [auction:sold], [auction:end]) the live flag, the
    current lot and the increment stay as they are and no bid leaves the
    queue: the bids that were queued are still there, in the same slots,
    with the same id, bidder and amount; at most their status has changed
    and new bids have been added behind them. *)
Theorem queue_between_lot_commands (evs : list Event) (w : World) :
  forallb keeps_lot evs = true ->
  let a := auctionState w in
  let a' := auctionState (run evs w).1 in
  same_lot a a' /\
  (set_status pending <$> onlineBids a) `prefix_of` (set_status pending <$> onlineBids a').
Proof.
  intros Hevs. cbv zeta.
  destruct (run_invariant_on keeps_lot
              (fun w' => same_lot (auctionState w) (auctionState w') /\
                 (set_status pending <$> onlineBids (auctionState w)) `prefix_of`
                 (set_status pending <$> onlineBids (auctionState w')))
              (fun _ => True))
    with (evs := evs) (w := w) as [H _]; try done.
  intros e w0 He [(Hl & Hc & Hi) Hp]. split; [|by apply Forall_true].
  pose proof (step_queue_effect e w0 He) as Heff.
  pose proof (unmarked_effect _ _ Heff) as Hp'.
  assert (same_lot (auctionState w0) (auctionState (step e w0).1)) as (Hl' & Hc' & Hi')
    by (by destruct Heff).
  split; [unfold same_lot; by rewrite Hl', Hc', Hi'|by etrans].
Qed.

Lemma queue_between_lot_commands_witness :
  (set_status pending <$> onlineBids (auctionState queued_world)) `prefix_of`
  (set_status pending <$> onlineBids (auctionState
     (run [ Receive "c1" 6 (bid_accept "bid_5"); Receive "b1" 7 (bid_submit 120);
            Receive "c1" 8 (auction_updateBid 300 None) ] queued_world).1)).
Proof.
  exact (proj2 (queue_between_lot_commands
                  [ Receive "c1" 6 (bid_accept "bid_5"); Receive "b1" 7 (bid_submit 120);
                    Receive "c1" 8 (auction_updateBid 300 None) ] queued_world eq_refl)).
Defined.

(** X13. Once a registered clerk has issued a lot command the queue is
    empty, so every bid id is stale: accept and reject, with any id and
    from any socket, change nothing and emit nothing. *)
Theorem lot_command_clears_queue
    (w : World) (sid : SocketId) (now : Z) (m : ClientMsg) :
  lot_command m = true ->
  JsMap.has sid (clerks (connectedSockets w)) = true ->
  let w' := (handle sid now m w).1 in
  onlineBids (auctionState w') = [] /\
  forall sid' bidId reason,
    on_bid_accept sid' bidId w' = (w', []) /\
    on_bid_reject sid' bidId reason w' = (w', []).
Proof.
  intros Hm Hc. cbv zeta.
  assert (onlineBids (auctionState (handle sid now m w).1) = []) as Hq.
  { destruct m; try discriminate Hm; unfold_handlers; by rewrite Hc. }
  split; [done|]. intros sid' bidId reason.
  unfold on_bid_accept, on_bid_reject, find_bid_index. rewrite Hq. simpl.
  by destruct (JsMap.has sid' _).
Qed.

Lemma lot_command_clears_queue_witness :
  let w' := (handle "c1" 6 (auction_sold 105 "Ann" (Some true)) queued_world).1 in
  onlineBids (auctionState queued_world) <> [] /\
  on_bid_accept "c1" "bid_5" w' = (w', []).
Proof.
  split; [discriminate|].
  exact (proj1 (proj2 (lot_command_clears_queue queued_world "c1" 6
                         (auction_sold 105 "Ann" (Some true)) eq_refl eq_refl)
                  "c1" "bid_5" None)).
Defined.

(** ** Without a clerk, and while not live *)

Lemma no_clerk_handle sid now m w :
  clerks (connectedSockets w) = [] ->
  (forall c n, m <> register_clerk c n) ->
  let w' := (handle sid now m w).1 in
  clerks (connectedSockets w') = [] /\
  same_lot (auctionState w) (auctionState w') /\
  currentBid (auctionState w') = currentBid (auctionState w) /\
  exists l, onlineBids (auctionState w') = onlineBids (auctionState w) ++ l.
Proof.
  intros Hc Hm. cbv zeta. unfold same_lot.
  destruct m; cbn [handle]; try (by edestruct Hm).
  10: { unfold on_disconnect. world_cbn.
        destruct (JsMap.has sid (bidders (connectedSockets w)));
          world_cbn; rewrite ?Hc; simpl;
          (split; [done|split; [done|split; [done|]]]);
          exists nil; by rewrite app_nil_r. }
  all: unfold_handlers; rewrite ?Hc; simpl.
  all: repeat match goal with
         | |- context [match ?x with _ => _ end] => destruct x eqn:?
         end; simpl.
  all: (split; [done|split; [done|split; [done|]]]).
  all: try (exists nil; by rewrite app_nil_r).
  by eexists.
Qed.

(** X14. As long as no socket has registered as clerk, nothing drives the
    auction: over any run without [register:clerk], from a state whose
    clerk registry is empty, the live flag, the lot, the increment and
    [currentBid] never change, and the queued bids stay as they are. *)
Theorem no_clerk_no_auction (evs : list Event) (w : World) :
  clerks (connectedSockets w) = [] ->
  forallb no_clerk_registration evs = true ->
  let w' := (run evs w).1 in
  clerks (connectedSockets w') = [] /\
  same_lot (auctionState w) (auctionState w') /\
  currentBid (auctionState w') = currentBid (auctionState w) /\
  onlineBids (auctionState w) `prefix_of` onlineBids (auctionState w').
Proof.
  intros Hc Hevs. cbv zeta.
  destruct (run_invariant_on no_clerk_registration
              (fun w' => clerks (connectedSockets w') = [] /\
                 same_lot (auctionState w) (auctionState w') /\
                 currentBid (auctionState w') = currentBid (auctionState w) /\
                 onlineBids (auctionState w) `prefix_of` onlineBids (auctionState w'))
              (fun _ => True))
    with (evs := evs) (w := w) as [H _]; try done.
  intros e w0 He (Hc0 & (Hl & Hlot & Hi) & Hb & Hp). split; [|by apply Forall_true].
  destruct e as [sid|sid now m]; simpl; [done|].
  destruct (mem sid (sockets w0)); [|done].
  destruct (no_clerk_handle sid now m w0 Hc0) as (Hc1 & (Hl1 & Hlot1 & Hi1) & Hb1 & l & Hq1).
  { intros c n ->. discriminate He. }
  split; [done|]. unfold same_lot. rewrite Hl1, Hlot1, Hi1, Hb1, Hq1.
  repeat split; try done. by apply prefix_app_r.
Qed.

Lemma no_clerk_no_auction_witness :
  isLive (auctionState
    (run [ Connect "b1"; Receive "b1" 1 (register_bidder "B7" "Ann");
           Receive "b1" 2 (auction_start (Some chair) (Some 1%Z) None);
           Receive "b1" 3 (auction_updateBid 500 None);
           Receive "b1" 4 (bid_submit 10) ] initialWorld).1) = false.
Proof.
  exact (proj1 (proj1 (proj2 (no_clerk_no_auction
    [ Connect "b1"; Receive "b1" 1 (register_bidder "B7" "Ann");
      Receive "b1" 2 (auction_start (Some chair) (Some 1%Z) None);
      Receive "b1" 3 (auction_updateBid 500 None);
      Receive "b1" 4 (bid_submit 10) ] initialWorld eq_refl eq_refl)))).
Defined.

Lemma idle_handle sid now m w :
  isLive (auctionState w) = false ->
  onlineBids (auctionState w) = [] ->
  (forall l s i, m <> auction_start l s i) ->
  let r := handle sid now m w in
  isLive (auctionState r.1) = false /\
  onlineBids (auctionState r.1) = [] /\
  Forall (fun e => carries_bid (event e) = false) r.2.
Proof.
  intros Hl Hq Hm. cbv zeta.
  destruct m; cbn [handle]; try (by edestruct Hm).
  10: { destruct (on_disconnect_auction sid w) as ((Hl' & _) & _ & Hq').
        rewrite Hl', Hq'. repeat split; try done.
        unfold on_disconnect. simpl.
        destruct (JsMap.has sid (bidders (connectedSockets w))); simpl;
          repeat constructor. }
  all: unfold_handlers; unfold find_bid_index; rewrite ?Hl, ?Hq; simpl.
  all: repeat match goal with
         | |- context [match ?x with _ => _ end] => destruct x eqn:?
         end; simpl.
  all: repeat split; try done; repeat constructor.
Qed.

(** X15. While the auction is not live nothing is queued or announced:
    over any run without [auction:start], from a state that is not live
    and has an empty queue, the auction stays not live, the queue stays
    empty, and no event holding a bid is emitted to anyone. *)
Theorem nothing_queued_while_idle (evs : list Event) (w : World) :
  isLive (auctionState w) = false ->
  onlineBids (auctionState w) = [] ->
  forallb not_start evs = true ->
  let r := run evs w in
  isLive (auctionState r.1) = false /\
  onlineBids (auctionState r.1) = [] /\
  Forall (fun e => carries_bid (event e) = false) r.2.
Proof.
  intros Hl Hq Hevs. cbv zeta.
  destruct (run_invariant_on not_start
              (fun w' => isLive (auctionState w') = false /\
                         onlineBids (auctionState w') = [])
              (fun e => carries_bid (event e) = false))
    with (evs := evs) (w := w) as [[H1 H2] H3]; try done.
  intros e w0 He [Hl0 Hq0].
  destruct e as [sid|sid now m]; simpl; [by repeat split|].
  destruct (mem sid (sockets w0)); [|by repeat split].
  destruct (idle_handle sid now m w0 Hl0 Hq0) as (? & ? & ?); [|done].
  intros l s i ->. discriminate He.
Qed.

Lemma nothing_queued_while_idle_witness :
  let r := run [ Receive "b1" 6 (bid_submit 500); Receive "c1" 7 (bid_accept "bid_5");
                 Receive "c1" 8 (auction_updateBid 40 None) ]
               (handle "c1" 5 auction_end queued_world).1 in
  onlineBids (auctionState r.1) = [] /\
  Forall (fun e => carries_bid (event e) = false) r.2.
Proof.
  exact (proj2 (nothing_queued_while_idle
    [ Receive "b1" 6 (bid_submit 500); Receive "c1" 7 (bid_accept "bid_5");
      Receive "c1" 8 (auction_updateBid 40 None) ]
    (handle "c1" 5 auction_end queued_world).1 eq_refl eq_refl eq_refl)).
Defined.

(** * The lot catalogue *)

Lemma findIndex_app_fresh {A} (p : A -> bool) (l : list A) y :
  Forall (fun x => p x = false) l -> p y = true ->
  findIndex p (l ++ [y]) = Some (length l).
Proof.
  intros Hl Hy. induction Hl as [|x l Hx _ IH]; simpl.
  - by rewrite Hy.
  - by rewrite Hx, IH.
Qed.

Lemma delete_last {A} (l : list A) y : delete (length l) (l ++ [y]) = l.
Proof. induction l as [|x l IH]; simpl; [done|]. by rewrite IH. Qed.

(** X16. A lot added by [POST /lots] and then deleted by the id the answer
    gave leaves the catalogue as it was, and the deleted lot is the added
    one, provided no lot already in the catalogue has that id (ids are
    built from the clock alone). *)
Theorem add_then_delete_round_trip (now : Z) (body : LotBody) (c : Catalog) (lot : CatalogLot) :
  (post_lot now body c).2 = reply_ok lot ->
  Forall (fun l => cl_id l <> cl_id lot) (lots c) ->
  delete_lot (cl_id lot) (post_lot now body c).1 = (c, reply_ok lot).
Proof.
  unfold post_lot.
  destruct (missing_num (lb_number body) || missing_str (lb_description body));
    [discriminate|].
  cbn [fst snd]. intros [= <-] Hfresh. unfold delete_lot. cbn [lots currentAuction cl_id].
  rewrite findIndex_app_fresh.
  - rewrite lookup_app_r, Nat.sub_diag by done. cbn [lookup list_lookup].
    rewrite delete_last. by destruct c.
  - eapply Forall_impl; [exact Hfresh|]. intros l Hl. by apply String.eqb_neq.
  - apply String.eqb_refl.
Qed.

Lemma add_then_delete_round_trip_witness :
  delete_lot "lot_40" (post_lot 40 (sample_body 9 "lamp") sample_catalog).1 =
    (sample_catalog,
     reply_ok (mkCatalogLot "lot_40" 9 "lamp" 0 None "General" [] lot_pending
                 None None 40 None)).
Proof.
  apply (add_then_delete_round_trip 40 (sample_body 9 "lamp") sample_catalog
           (mkCatalogLot "lot_40" 9 "lamp" 0 None "General" [] lot_pending
              None None 40 None) eq_refl).
  repeat constructor; discriminate.
Defined.

Lemma imap_bulk_numbers clock (len : nat) (items : list LotBody) (k : nat) :
  Forall (fun it => missing_num (lb_number it) = true) items ->
  cl_number <$> imap (fun i => bulk_lot clock len (k + i)) items =
    (fun i => Z.of_nat (len + i + 1)) <$> seq k (length items).
Proof.
  intros H. revert k. induction H as [|it items Hit _ IH]; intros k; [done|].
  cbn [imap fmap list_fmap length seq]. f_equal.
  - unfold bulk_lot, or_num. simpl. rewrite Nat.add_0_r.
    unfold missing_num in Hit. destruct (lb_number it) as [v|]; [|done].
    by rewrite Hit.
  - rewrite <- (IH (S k)). f_equal. apply imap_ext. intros i x _. simpl.
    by rewrite Nat.add_succ_r.
Qed.

(** X17. When no item of a bulk request gives a number (or gives 0), the
    lots it adds are numbered from the size of the catalogue plus one
    upwards, one by one in the order of the items, and the catalogue grows
    by exactly the number of items, the former lots staying in front. *)
Theorem bulk_numbers_follow_catalogue
    (clock : nat -> Z) (items : list LotBody) (c : Catalog) :
  Forall (fun it => missing_num (lb_number it) = true) items ->
  let r := post_lots_bulk clock (Some items) c in
  exists added,
    r.2 = reply_ok (length items, added) /\
    lots r.1 = lots c ++ added /\
    cl_number <$> added =
      (fun i => Z.of_nat (length (lots c) + i + 1)) <$> seq 0 (length items).
Proof.
  intros H. cbv zeta. unfold post_lots_bulk. cbn [fst snd lots].
  eexists. split; [by rewrite length_imap|]. split; [done|].
  by apply (imap_bulk_numbers clock (length (lots c)) items 0).
Qed.

Lemma bulk_numbers_follow_catalogue_witness :
  cl_number <$> drop 3 (lots (post_lots_bulk (fun _ => 50%Z)
      (Some [ mkLotBody None (Some "desk") None None None None;
              mkLotBody (Some 0%Z) None None None None None ]) sample_catalog).1)
    = [4%Z; 5%Z].
Proof.
  destruct (bulk_numbers_follow_catalogue (fun _ => 50%Z)
              [ mkLotBody None (Some "desk") None None None None;
                mkLotBody (Some 0%Z) None None None None None ] sample_catalog)
    as (added & _ & Hl & Hn); [by repeat constructor|].
  cbv zeta in Hl. rewrite Hl. exact Hn.
Defined.




Lemma or_num_nonzero x d : d <> 0%Z -> or_num x d <> 0%Z.
Proof.
  intros Hd. unfold or_num. destruct x as [v|]; [|done].
  by destruct (Z.eqb_spec v 0).
Qed.

Lemma or_str_nonempty x d : d <> "" -> or_str x d <> "".
Proof. intros Hd. unfold or_str. by destruct x as [[|]|]. Qed.

Lemma bulk_lots_labelled clock len (items : list LotBody) k :
  Forall well_labelled (imap (fun i => bulk_lot clock len (k + i)) items).
Proof.
  revert k. induction items as [|it items IH]; intros k; [constructor|].
  cbn [imap]. constructor.
  - split; simpl; [apply or_num_nonzero; lia|by apply or_str_nonempty].
  - rewrite (imap_ext _ (fun i => bulk_lot clock len (S k + i))); [apply IH|].
    intros i x _. simpl. by rewrite Nat.add_succ_r.
Qed.

Lemma serve_labelled r c :
  Forall well_labelled (lots c) -> Forall well_labelled (lots (serve r c)).
Proof.
  intros H. destruct r as [now body|clock items|lotId|now body|now body]; simpl.
  - unfold post_lot.
    destruct (lb_number body) as [v|] eqn:Hn; simpl; [|done].
    destruct (Z.eqb_spec v 0); simpl; [done|].
    destruct (lb_description body) as [[|ch s]|] eqn:Hd; simpl; try done.
    apply Forall_app. split; [done|]. constructor; [|constructor].
    split; simpl; by rewrite ?Hn, ?Hd.
  - destruct items as [items|]; simpl; [|done].
    apply Forall_app. split; [done|].
    apply (bulk_lots_labelled clock (length (lots c)) items 0).
  - unfold delete_lot. destruct (findIndex _ _) as [i|]; [|done].
    destruct (lots c !! i); simpl; [by apply Forall_delete|done].
  - unfold post_create.
    destruct (missing_str (cb_title body) || missing_str (cb_date body)); simpl;
      [done|constructor].
  - unfold post_record_sale.
    destruct (missing_num (sb_lotNumber body) || missing_num (sb_winningBid body)
              || missing_num (sb_buyerNumber body)); simpl; [done|].
    destruct (findIndex _ _) as [i|]; [|done].
    destruct (lots c !! i) as [lot|] eqn:Hi; [|done].
    apply Forall_insert; [done|].
    by apply (Forall_lookup_1 _ _ _ _ H Hi).
Qed.

(** X19. Whatever sequence of [POST /lots], [POST /lots/bulk],
    [DELETE /lots/:lotId], [POST /create] and [POST /record-sale] requests
    is served, if every lot of the catalogue had a number other than 0 and
    a description that is not empty, every lot still has. *)
Theorem catalogue_lots_are_labelled (rs : list CatalogRequest) (c : Catalog) :
  Forall well_labelled (lots c) ->
  Forall well_labelled (lots (serve_all rs c)).
Proof.
  revert c. induction rs as [|r rs IH]; intros c H; [done|].
  apply IH. by apply serve_labelled.
Qed.

Lemma catalogue_lots_are_labelled_witness :
  Forall well_labelled
    (lots (serve_all
             [ req_post_lot 10 (mkLotBody (Some 0%Z) (Some "vase") None None None None);
               req_post_bulk (fun _ => 20%Z)
                 (Some [ mkLotBody (Some 0%Z) (Some "") None None None None ]);
               req_record_sale 30 (mkSaleBody (Some 1%Z) (Some 5%Z) (Some 2%Z) None None) ]
             (mkCatalog [] None))).
Proof. apply catalogue_lots_are_labelled. constructor. Defined.
